(** * Robot telemetry back end: simulator, processor, data manager, update loop

    A shallow embedding of [main.py].  Python floats are binary64 values
    ([spec_float] with precision 53), integers are [Z], ISO timestamps are
    strings.  Code that touches the random source, the clock, the file
    system, standard output or the [DataManager] singleton runs in a small
    state-and-exception monad over an explicit [World]. *)

From Stdlib Require Import ZArith List String Bool Lia.
From Stdlib Require Import Floats.SpecFloat.
From stdpp Require Import base option list gmap strings.
Import ListNotations.

Local Open Scope Z_scope.

(* ====================================================================== *)
(** ** Python floats *)
(* ====================================================================== *)

Module PyFloat.

Definition prec : Z := 53.
Definition emax : Z := 1024.

(** A Python [float]. *)
Definition float : Type := spec_float.

(** A float literal with an integral value, such as [130.0] or [-1.0]. *)
Definition of_Z (z : Z) : float := binary_normalize prec emax z 0 false.

Definition leb (x y : float) : bool := SFleb x y.
Definition valid (x : float) : bool := valid_binary prec emax x.

(** [n / d] rounded to the nearest integer, ties to the even one
    ([0 <= n], [0 < d]). *)
Definition round_half_even_div (n d : Z) : Z :=
  let q := n / d in
  let r := n mod d in
  match 2 * r ?= d with
  | Lt => q
  | Gt => q + 1
  | Eq => if Z.even q then q else q + 1
  end.

(** The double nearest to the decimal [(-1)^s * k / 10^ndigits], which is
    what reading the decimal string back gives ([0 < k]). *)
Definition of_decimal (s : bool) (k : Z) (ndigits : nat) : float :=
  match k with
  | Zpos p =>
      SFdiv prec emax (S754_finite s p 0)
        (S754_finite false (Z.to_pos (10 ^ Z.of_nat ndigits)) 0)
  | _ => S754_zero s
  end.

(** The builtin [round(x, ndigits)] for [0 <= ndigits], as CPython computes
    it: infinities, nans and zeros round to themselves; a finite value is
    converted to the decimal with [ndigits] digits after the point nearest
    to its exact value (ties to even) and that decimal is read back as a
    double, with the sign of [x].  A float with a non-negative exponent is
    an integer already. *)
Definition round (x : float) (ndigits : nat) : float :=
  match x with
  | S754_finite s m e =>
      if 0 <=? e then x
      else
        of_decimal s
          (round_half_even_div (Zpos m * 10 ^ Z.of_nat ndigits) (2 ^ (- e)))
          ndigits
  | _ => x
  end.

(** *** Exact values and checked ranges *)

(** [2^1074]: every valid finite double is an integer multiple of
    [2^-1074]. *)
Definition scale : Z := 2 ^ 1074.

Definition scaled (x : float) : Z :=
  match x with
  | S754_finite s m e => cond_Zopp s (Zpos m * 2 ^ (e + 1074))
  | _ => 0
  end.

(** *** Checking a range of decimals by enumeration *)

Definition within (lo hi : Z) (v : float) : bool :=
  leb (of_Z lo) v && leb v (of_Z hi).

Definition decimal_ok (lo hi : Z) (nd : nat) (s : bool) (k : Z) : bool :=
  implb
    ((lo * 10 ^ Z.of_nat nd <=? cond_Zopp s k)
     && (cond_Zopp s k <=? hi * 10 ^ Z.of_nat nd))
    (within lo hi (of_decimal s k nd)).

Definition decimals_ok (lo hi : Z) (nd : nat) : bool :=
  forallb
    (fun i =>
       decimal_ok lo hi nd false (Z.of_nat i)
       && decimal_ok lo hi nd true (Z.of_nat i))
    (seq 0
       (S (Z.to_nat
             (Z.max (Z.abs lo) (Z.abs hi) * 10 ^ Z.of_nat nd)))).

(** Everything about a range that is settled by evaluation. *)
Definition range_checked (lo hi : Z) (nd : nat) : bool :=
  valid (of_Z lo) && valid (of_Z hi)
  && (scaled (of_Z lo) =? lo * scale) && (scaled (of_Z hi) =? hi * scale)
  && match of_Z lo, of_Z hi with
     | S754_finite _ _ _, S754_finite _ _ _ => true
     | _, _ => false
     end
  && (- 2 ^ 52 <? lo) && (hi <? 2 ^ 52)
  && decimals_ok lo hi nd.

End PyFloat.

Abbreviation float := PyFloat.float.

(* ====================================================================== *)
(** ** Data models *)
(* ====================================================================== *)

(** Raw models, as the hardware sends them. *)
Record RawMotorData := {
  raw_id : Z;
  raw_velocity : float;
  cm : float;
  raw_temperature : float
}.

Record RawPalletData := {
  id_pallet : Z;
  timestamp_raw : string
}.

Record RawCentroidData := {
  centroid_x : float;
  centroid_y : float;
  centroid_z : float
}.

Record RawHardwareData := {
  raw_motors : list RawMotorData;
  raw_pallet : RawPalletData;
  raw_centroid : RawCentroidData
}.

(** Processed models, the public schema. *)
Record ProcessedMotor := {
  motor_id : Z;
  velocity : float;
  distance : float;
  temperature : float
}.

Record ProcessedPallet := {
  pallet_id : Z;
  timestamp : string
}.

Record Centroid := { x : float; y : float; z : float }.

Record Giroscopio := { centroid : Centroid }.

Record ProcessedRobotData := {
  motors : list ProcessedMotor;
  pallets : list ProcessedPallet;
  giroscopio : Giroscopio
}.

Record HistoricalRecord := {
  timestamp_coleta : string;
  data : ProcessedRobotData
}.

(* ====================================================================== *)
(** ** DataProcessor *)
(* ====================================================================== *)

Module DataProcessor.

Definition process_motor (raw_motor : RawMotorData) : ProcessedMotor :=
  {| motor_id := raw_id raw_motor;
     velocity := raw_velocity raw_motor;
     distance := cm raw_motor;
     temperature := raw_temperature raw_motor |}.

Definition process_pallet (raw_pallet : RawPalletData) : ProcessedPallet :=
  {| pallet_id := id_pallet raw_pallet;
     timestamp := timestamp_raw raw_pallet |}.

Definition process_centroid (raw_centroid : RawCentroidData) : Giroscopio :=
  let centroid :=
    {| x := centroid_x raw_centroid;
       y := centroid_y raw_centroid;
       z := centroid_z raw_centroid |} in
  {| centroid := centroid |}.

Definition process_hardware_data (raw_data : RawHardwareData)
  : ProcessedRobotData :=
  let processed_motors := map process_motor (raw_motors raw_data) in
  let processed_pallet := process_pallet (raw_pallet raw_data) in
  let processed_giroscopio := process_centroid (raw_centroid raw_data) in
  {| motors := processed_motors;
     pallets := [processed_pallet];
     giroscopio := processed_giroscopio |}.

End DataProcessor.

(* ====================================================================== *)
(** ** The world the program runs in *)
(* ====================================================================== *)

(** What reading a file back can fail with. *)
Inductive DecodeError :=
| JSONDecodeError
| UnicodeDecodeError
| ValidationError
| TypeError.

(** Exceptions.  All are subclasses of [Exception] except [CancelledError],
    which derives from [BaseException] only. *)
Inductive exn :=
| OSError
| Decode (d : DecodeError)
| AttributeError
| CancelledError.

Definition is_Exception (e : exn) : bool :=
  match e with
  | CancelledError => false
  | _ => true
  end.

(** The content of a file, seen through the two ways the program reads one:
    [json.load] followed by the [ProcessedRobotData] constructor, and [json.load]
    followed by the [HistoricalRecord] constructor on every element. *)
Record Document := {
  as_snapshot : DecodeError + ProcessedRobotData;
  as_history : DecodeError + list HistoricalRecord
}.

(** [json.dump(snapshot.model_dump(), f)]: a JSON object, not a list. *)
Definition dump_snapshot (d : ProcessedRobotData) : Document :=
  {| as_snapshot := inr d; as_history := inl TypeError |}.

(** [json.dump([r.model_dump() for r in history], f)]: a JSON array. *)
Definition dump_history (h : list HistoricalRecord) : Document :=
  {| as_snapshot := inl TypeError; as_history := inr h |}.

(** What an interrupted write leaves behind. *)
Definition truncated : Document :=
  {| as_snapshot := inl JSONDecodeError; as_history := inl JSONDecodeError |}.

(** The lines the program prints. *)
Inductive LogLine :=
| INFO_current_loaded (path : string)
| AVISO_current_load (e : exn)
| INFO_hist_loaded (n : nat)
| AVISO_hist_load (e : exn)
| INFO_current_saved (path : string)
| ERRO_current_save (e : exn)
| INFO_hist_saved (n : nat) (path : string)
| ERRO_hist_save (e : exn)
| INFO_updated (now : string)
| INFO_loop_starting
| ERRO_loop (e : exn)
| INFO_loop_stopped.

(** The [random] module: the result of the [n]-th draw, for each kind of
    call and its arguments. *)
Record RandomSource := {
  uniform_at : nat -> float -> float -> float;
  randint_at : nat -> Z -> Z -> Z
}.

(** How a file-system operation goes. *)
Inductive IoFault := IoOk | IoOpenFails | IoWriteFails.

(** The attributes of the [DataManager] object. *)
Record DataManagerObj := {
  _initialized : bool;
  current_data : option ProcessedRobotData;
  historical_data : list HistoricalRecord;
  data_path : string;
  hist_data_path : string
}.

Record World := {
  random : RandomSource;           (* the random source *)
  random_pos : nat;                (* draws made so far *)
  clock : nat -> string;           (* the n-th reading of the clock *)
  clock_pos : nat;                 (* readings made so far *)
  io_fault : nat -> IoFault;       (* fate of the n-th file-system call *)
  io_pos : nat;                    (* file-system calls made so far *)
  files : gmap string Document;    (* the files, by path *)
  stdout : list LogLine;           (* printed lines, oldest first *)
  heap : list DataManagerObj;      (* objects, by address *)
  DataManager_instance : option nat;  (* DataManager._instance *)
  cancel_at : nat -> bool;         (* is the task cancelled at its n-th await *)
  await_pos : nat;                 (* awaits made so far *)
  slept : list Z                   (* the sleeps completed, oldest first *)
}.

Definition set_random_pos (n : nat) (w : World) : World :=
  {| random := random w; random_pos := n; clock := clock w;
     clock_pos := clock_pos w; io_fault := io_fault w; io_pos := io_pos w;
     files := files w; stdout := stdout w; heap := heap w;
     DataManager_instance := DataManager_instance w;
     cancel_at := cancel_at w; await_pos := await_pos w; slept := slept w |}.

Definition set_clock_pos (n : nat) (w : World) : World :=
  {| random := random w; random_pos := random_pos w; clock := clock w;
     clock_pos := n; io_fault := io_fault w; io_pos := io_pos w;
     files := files w; stdout := stdout w; heap := heap w;
     DataManager_instance := DataManager_instance w;
     cancel_at := cancel_at w; await_pos := await_pos w; slept := slept w |}.

Definition set_io_pos (n : nat) (w : World) : World :=
  {| random := random w; random_pos := random_pos w; clock := clock w;
     clock_pos := clock_pos w; io_fault := io_fault w; io_pos := n;
     files := files w; stdout := stdout w; heap := heap w;
     DataManager_instance := DataManager_instance w;
     cancel_at := cancel_at w; await_pos := await_pos w; slept := slept w |}.

Definition set_files (f : gmap string Document) (w : World) : World :=
  {| random := random w; random_pos := random_pos w; clock := clock w;
     clock_pos := clock_pos w; io_fault := io_fault w; io_pos := io_pos w;
     files := f; stdout := stdout w; heap := heap w;
     DataManager_instance := DataManager_instance w;
     cancel_at := cancel_at w; await_pos := await_pos w; slept := slept w |}.

Definition set_stdout (l : list LogLine) (w : World) : World :=
  {| random := random w; random_pos := random_pos w; clock := clock w;
     clock_pos := clock_pos w; io_fault := io_fault w; io_pos := io_pos w;
     files := files w; stdout := l; heap := heap w;
     DataManager_instance := DataManager_instance w;
     cancel_at := cancel_at w; await_pos := await_pos w; slept := slept w |}.

Definition set_heap (h : list DataManagerObj) (w : World) : World :=
  {| random := random w; random_pos := random_pos w; clock := clock w;
     clock_pos := clock_pos w; io_fault := io_fault w; io_pos := io_pos w;
     files := files w; stdout := stdout w; heap := h;
     DataManager_instance := DataManager_instance w;
     cancel_at := cancel_at w; await_pos := await_pos w; slept := slept w |}.

Definition set_DataManager_instance (i : option nat) (w : World) : World :=
  {| random := random w; random_pos := random_pos w; clock := clock w;
     clock_pos := clock_pos w; io_fault := io_fault w; io_pos := io_pos w;
     files := files w; stdout := stdout w; heap := heap w;
     DataManager_instance := i;
     cancel_at := cancel_at w; await_pos := await_pos w; slept := slept w |}.

Definition set_await_pos (n : nat) (w : World) : World :=
  {| random := random w; random_pos := random_pos w; clock := clock w;
     clock_pos := clock_pos w; io_fault := io_fault w; io_pos := io_pos w;
     files := files w; stdout := stdout w; heap := heap w;
     DataManager_instance := DataManager_instance w;
     cancel_at := cancel_at w; await_pos := n; slept := slept w |}.

Definition set_slept (l : list Z) (w : World) : World :=
  {| random := random w; random_pos := random_pos w; clock := clock w;
     clock_pos := clock_pos w; io_fault := io_fault w; io_pos := io_pos w;
     files := files w; stdout := stdout w; heap := heap w;
     DataManager_instance := DataManager_instance w;
     cancel_at := cancel_at w; await_pos := await_pos w; slept := l |}.

(* ====================================================================== *)
(** ** The monad of effectful code *)
(* ====================================================================== *)

(** A call either returns a value or raises; either way the world it has
    changed stays changed. *)
Inductive Outcome (A : Type) :=
| Ok (a : A)
| Raise (e : exn).
Arguments Ok {A} a.
Arguments Raise {A} e.

Definition M (A : Type) : Type := World -> Outcome A * World.

Definition ret {A} (a : A) : M A := fun w => (Ok a, w).

Definition bind {A B} (m : M A) (k : A -> M B) : M B :=
  fun w =>
    match m w with
    | (Ok a, w') => k a w'
    | (Raise e, w') => (Raise e, w')
    end.

Definition raise {A} (e : exn) : M A := fun w => (Raise e, w).

(** [try: body except Exception as e: handler e].  An exception outside
    the [Exception] hierarchy passes through. *)
Definition try_except {A} (body : M A) (handler : exn -> M A) : M A :=
  fun w =>
    match body w with
    | (Ok a, w') => (Ok a, w')
    | (Raise e, w') =>
        if is_Exception e then handler e w' else (Raise e, w')
    end.

Declare Scope py_scope.
Delimit Scope py_scope with py.
Notation "v <- m ;; k" := (bind m (fun v => k))
  (at level 100, m at next level, right associativity) : py_scope.
Notation "m ;; k" := (bind m (fun _ => k))
  (at level 100, right associativity) : py_scope.
Local Open Scope py_scope.

(** [[f(i) for i in l]], left to right. *)
Fixpoint for_each {A B} (f : A -> M B) (l : list A) : M (list B) :=
  match l with
  | [] => ret []
  | a :: l' =>
      b <- f a ;;
      bs <- for_each f l' ;;
      ret (b :: bs)
  end.

(** [range(a, b)]. *)
Definition range (a b : Z) : list Z :=
  map (fun i => a + Z.of_nat i) (seq 0 (Z.to_nat (b - a))).

(** *** Primitive effects *)

(** [random.uniform(a, b)]. *)
Definition random_uniform (a b : float) : M float :=
  fun w =>
    (Ok (uniform_at (random w) (random_pos w) a b),
     set_random_pos (S (random_pos w)) w).

(** [random.randint(a, b)]. *)
Definition random_randint (a b : Z) : M Z :=
  fun w =>
    (Ok (randint_at (random w) (random_pos w) a b),
     set_random_pos (S (random_pos w)) w).

(** A reading of the clock rendered as text: [datetime.now(...)] followed
    by [isoformat()] or [strftime(...)]. *)
Definition datetime_now : M string :=
  fun w => (Ok (clock w (clock_pos w)), set_clock_pos (S (clock_pos w)) w).

(** [print(line)]. *)
Definition print (line : LogLine) : M unit :=
  fun w => (Ok tt, set_stdout (stdout w ++ [line]) w).

(** [path.exists()] when the system gives the status of the path: whether
    the file is there.  The check on a disk that refuses the status is
    [OnDisk.path_exists]. *)
Definition path_exists (path : string) : M bool :=
  fun w => (Ok (bool_decide (is_Some (files w !! path))), w).

(** The fate of the next file-system call. *)
Definition next_io : M IoFault :=
  fun w => (Ok (io_fault w (io_pos w)), set_io_pos (S (io_pos w)) w).

(** [path.parent.mkdir(parents=True, exist_ok=True)]. *)
Definition mkdir_parent (path : string) : M unit :=
  fault <- next_io ;;
  match fault with
  | IoOk => ret tt
  | _ => raise OSError
  end.

(** [with open(path, "r") as f]: the content of the file. *)
Definition open_read (path : string) : M Document :=
  fault <- next_io ;;
  match fault with
  | IoOk =>
      fun w =>
        match files w !! path with
        | Some doc => (Ok doc, w)
        | None => (Raise OSError, w)
        end
  | _ => raise OSError
  end.

(** [with open(path, "w") as f: json.dump(..., f)].  When [open] fails the
    file is untouched; when the write fails the file was truncated by
    [open] already. *)
Definition open_write (path : string) (doc : Document) : M unit :=
  fault <- next_io ;;
  match fault with
  | IoOk => fun w => (Ok tt, set_files (<[path := doc]> (files w)) w)
  | IoOpenFails => raise OSError
  | IoWriteFails =>
      fun w => (Raise OSError, set_files (<[path := truncated]> (files w)) w)
  end.

(** [json.load(f)], then the [ProcessedRobotData] constructor on the
    loaded dict. *)
Definition load_snapshot (doc : Document) : M ProcessedRobotData :=
  match as_snapshot doc with
  | inr d => ret d
  | inl err => raise (Decode err)
  end.

(** [json.load(f)], then the [HistoricalRecord] constructor on every
    element of the loaded list. *)
Definition load_history (doc : Document) : M (list HistoricalRecord) :=
  match as_history doc with
  | inr h => ret h
  | inl err => raise (Decode err)
  end.

(* ====================================================================== *)
(** ** DataSimulator *)
(* ====================================================================== *)

Module DataSimulator.

Definition generate_motor_data (motor_id : Z) : M RawMotorData :=
  v <- random_uniform (PyFloat.of_Z 130) (PyFloat.of_Z 160) ;;
  c <- random_uniform (PyFloat.of_Z 10) (PyFloat.of_Z 30) ;;
  t <- random_uniform (PyFloat.of_Z 65) (PyFloat.of_Z 80) ;;
  ret {| raw_id := motor_id;
         raw_velocity := PyFloat.round v 1;
         cm := PyFloat.round c 1;
         raw_temperature := PyFloat.round t 1 |}.

Definition generate_pallet_data : M RawPalletData :=
  i <- random_randint 1 100 ;;
  now <- datetime_now ;;
  ret {| id_pallet := i; timestamp_raw := now |}.

Definition generate_centroid_data : M RawCentroidData :=
  cx <- random_uniform (PyFloat.of_Z (-1)) (PyFloat.of_Z 1) ;;
  cy <- random_uniform (PyFloat.of_Z (-1)) (PyFloat.of_Z 1) ;;
  cz <- random_uniform (PyFloat.of_Z (-1)) (PyFloat.of_Z 1) ;;
  ret {| centroid_x := PyFloat.round cx 2;
         centroid_y := PyFloat.round cy 2;
         centroid_z := PyFloat.round cz 2 |}.

Definition simulate_hardware_data : M RawHardwareData :=
  motors <- for_each generate_motor_data (range 1 4) ;;
  pallet <- generate_pallet_data ;;
  centroid <- generate_centroid_data ;;
  ret {| raw_motors := motors; raw_pallet := pallet;
         raw_centroid := centroid |}.

End DataSimulator.

(* ====================================================================== *)
(** ** DataManager *)
(* ====================================================================== *)

Module DataManager.

(** Attribute access on the object at address [self]. *)
Definition get_self (self : nat) : M DataManagerObj :=
  fun w =>
    match heap w !! self with
    | Some o => (Ok o, w)
    | None => (Raise AttributeError, w)
    end.

Definition modify_self (self : nat) (f : DataManagerObj -> DataManagerObj)
  : M unit :=
  fun w =>
    match heap w !! self with
    | Some o => (Ok tt, set_heap (<[self := f o]> (heap w)) w)
    | None => (Raise AttributeError, w)
    end.

Definition with_initialized (b : bool) (o : DataManagerObj) :=
  {| _initialized := b; current_data := current_data o;
     historical_data := historical_data o; data_path := data_path o;
     hist_data_path := hist_data_path o |}.

Definition with_current_data (c : option ProcessedRobotData)
    (o : DataManagerObj) :=
  {| _initialized := _initialized o; current_data := c;
     historical_data := historical_data o; data_path := data_path o;
     hist_data_path := hist_data_path o |}.

Definition with_historical_data (h : list HistoricalRecord)
    (o : DataManagerObj) :=
  {| _initialized := _initialized o; current_data := current_data o;
     historical_data := h; data_path := data_path o;
     hist_data_path := hist_data_path o |}.

Definition with_data_path (p : string) (o : DataManagerObj) :=
  {| _initialized := _initialized o; current_data := current_data o;
     historical_data := historical_data o; data_path := p;
     hist_data_path := hist_data_path o |}.

Definition with_hist_data_path (p : string) (o : DataManagerObj) :=
  {| _initialized := _initialized o; current_data := current_data o;
     historical_data := historical_data o; data_path := data_path o;
     hist_data_path := p |}.

(** What [super().__new__(cls)] followed by [_initialized = False] leaves:
    the other attributes are not set yet, and nothing reads them before
    [__init__] assigns them. *)
Definition blank : DataManagerObj :=
  {| _initialized := false; current_data := None; historical_data := [];
     data_path := ""; hist_data_path := "" |}.

Definition __new__ : M nat :=
  fun w =>
    match DataManager_instance w with
    | None =>
        let self := length (heap w) in
        (Ok self,
         set_DataManager_instance (Some self)
           (set_heap (heap w ++ [blank]) w))
    | Some self => (Ok self, w)
    end.

Definition _load_current_from_disk (self : nat) : M unit :=
  o <- get_self self ;;
  found <- path_exists (data_path o) ;;
  if (found : bool) then
    try_except
      (doc <- open_read (data_path o) ;;
       d <- load_snapshot doc ;;
       modify_self self (with_current_data (Some d)) ;;
       print (INFO_current_loaded (data_path o)))
      (fun e => print (AVISO_current_load e))
  else ret tt.

Definition _load_historical_from_disk (self : nat) : M unit :=
  o <- get_self self ;;
  found <- path_exists (hist_data_path o) ;;
  if (found : bool) then
    try_except
      (doc <- open_read (hist_data_path o) ;;
       h <- load_history doc ;;
       modify_self self (with_historical_data h) ;;
       print (INFO_hist_loaded (length h)))
      (fun e => print (AVISO_hist_load e))
  else ret tt.

(** The [simulator] and [processor] attributes hold stateless objects
    whose methods are the functions of [DataSimulator] and
    [DataProcessor]; they are not stored. *)
Definition __init__ (self : nat) : M unit :=
  o <- get_self self ;;
  if _initialized o then ret tt
  else
    modify_self self (with_current_data None) ;;
    modify_self self (with_historical_data []) ;;
    modify_self self (with_data_path "data/robot_data.json") ;;
    modify_self self (with_hist_data_path "data/hist_data.json") ;;
    modify_self self (with_initialized true) ;;
    o <- get_self self ;;
    mkdir_parent (data_path o) ;;
    _load_current_from_disk self ;;
    _load_historical_from_disk self.

(** The call [DataManager()]. *)
Definition construct : M nat :=
  self <- __new__ ;;
  __init__ self ;;
  ret self.

Definition _save_current_to_disk (self : nat) : M unit :=
  o <- get_self self ;;
  match current_data o with
  | None => ret tt
  | Some d =>
      try_except
        (open_write (data_path o) (dump_snapshot d) ;;
         print (INFO_current_saved (data_path o)))
        (fun e => print (ERRO_current_save e))
  end.

Definition _save_historical_to_disk (self : nat) : M unit :=
  o <- get_self self ;;
  try_except
    (open_write (hist_data_path o) (dump_history (historical_data o)) ;;
     print (INFO_hist_saved (length (historical_data o))
              (hist_data_path o)))
    (fun e => print (ERRO_hist_save e)).

Definition _add_to_historical (self : nat) (data : ProcessedRobotData)
  : M unit :=
  timestamp_coleta <- datetime_now ;;
  let record := {| timestamp_coleta := timestamp_coleta; data := data |} in
  o <- get_self self ;;
  modify_self self (with_historical_data (historical_data o ++ [record])).

Definition update_data (self : nat) : M unit :=
  raw_data <- DataSimulator.simulate_hardware_data ;;
  let processed_data := DataProcessor.process_hardware_data raw_data in
  modify_self self (with_current_data (Some processed_data)) ;;
  _add_to_historical self processed_data ;;
  _save_current_to_disk self ;;
  _save_historical_to_disk self ;;
  now <- datetime_now ;;
  print (INFO_updated now).

Definition get_current_data (self : nat) : M (option ProcessedRobotData) :=
  o <- get_self self ;;
  ret (current_data o).

Definition get_historical_data (self : nat) : M (list HistoricalRecord) :=
  o <- get_self self ;;
  ret (historical_data o).

End DataManager.

(* ====================================================================== *)
(** ** DataManager on a disk that can refuse an existence check *)
(* ====================================================================== *)

(** [path.exists()] asks the system for the status of the path.  It
    returns [False] when the system reports that the path is not there and
    lets every other [OSError] out, the [PermissionError] of a directory
    that may not be searched among them.  Both loaders make the check
    before they enter their [try].  [DataManager] above is the class on a
    disk that gives every status.  Here [refused] tells the paths whose
    status the system refuses, and the loaders, [__init__] and the
    constructor are the same code with the check that can raise. *)
Module OnDisk.

Section Refused.

Variable refused : string -> bool.

Definition path_exists (path : string) : M bool :=
  fun w =>
    if refused path then (Raise OSError, w)
    else (Ok (bool_decide (is_Some (files w !! path))), w).

Definition _load_current_from_disk (self : nat) : M unit :=
  o <- DataManager.get_self self ;;
  found <- path_exists (data_path o) ;;
  if (found : bool) then
    try_except
      (doc <- open_read (data_path o) ;;
       d <- load_snapshot doc ;;
       DataManager.modify_self self (DataManager.with_current_data (Some d)) ;;
       print (INFO_current_loaded (data_path o)))
      (fun e => print (AVISO_current_load e))
  else ret tt.

Definition _load_historical_from_disk (self : nat) : M unit :=
  o <- DataManager.get_self self ;;
  found <- path_exists (hist_data_path o) ;;
  if (found : bool) then
    try_except
      (doc <- open_read (hist_data_path o) ;;
       h <- load_history doc ;;
       DataManager.modify_self self (DataManager.with_historical_data h) ;;
       print (INFO_hist_loaded (length h)))
      (fun e => print (AVISO_hist_load e))
  else ret tt.

Definition __init__ (self : nat) : M unit :=
  o <- DataManager.get_self self ;;
  if _initialized o then ret tt
  else
    DataManager.modify_self self (DataManager.with_current_data None) ;;
    DataManager.modify_self self (DataManager.with_historical_data []) ;;
    DataManager.modify_self self
      (DataManager.with_data_path "data/robot_data.json") ;;
    DataManager.modify_self self
      (DataManager.with_hist_data_path "data/hist_data.json") ;;
    DataManager.modify_self self (DataManager.with_initialized true) ;;
    o <- DataManager.get_self self ;;
    mkdir_parent (data_path o) ;;
    _load_current_from_disk self ;;
    _load_historical_from_disk self.

Definition construct : M nat :=
  self <- DataManager.__new__ ;;
  __init__ self ;;
  ret self.

End Refused.

End OnDisk.

(* ====================================================================== *)
(** ** The API handlers *)
(* ====================================================================== *)

(** [GET /api/data]; [data_manager] is the module's global. *)
Definition get_robot_data (data_manager : nat)
  : M (option ProcessedRobotData) :=
  current_data <- DataManager.get_current_data data_manager ;;
  match current_data with
  | None =>
      DataManager.update_data data_manager ;;
      current_data <- DataManager.get_current_data data_manager ;;
      ret current_data
  | Some _ => ret current_data
  end.

(** [GET /api/hist_data]. *)
Definition get_historical_data (data_manager : nat)
  : M (list HistoricalRecord) :=
  historical_data <- DataManager.get_historical_data data_manager ;;
  ret historical_data.

(* ====================================================================== *)
(** ** BackgroundTaskManager *)
(* ====================================================================== *)

(** What the task manager asks of the object it is given: an
    [update_data()] method. *)
Class DataManagerLike (D : Type) := update_data_of : D -> M unit.

(** A reference to the [DataManager] at an address. *)
Record DataManagerRef := { address : nat }.

#[export] Instance DataManager_like : DataManagerLike DataManagerRef :=
  fun d => DataManager.update_data (address d).

(** [await asyncio.sleep(delay)]: the one place where a cancellation
    reaches the task, as a [CancelledError] raised by the [await]. *)
Definition asyncio_sleep (delay : Z) : M unit :=
  fun w =>
    let w' := set_await_pos (S (await_pos w)) w in
    if cancel_at w (await_pos w) then (Raise CancelledError, w')
    else (Ok tt, set_slept (slept w ++ [delay]) w').

(** An [asyncio.Task]. *)
Inductive Task := TaskScheduled.

Section BackgroundTaskManager.

Context {D : Type} `{DataManagerLike D}.

Record BackgroundTaskManager := {
  data_manager : D;
  task : option Task
}.

Definition BackgroundTaskManager_init (data_manager : D)
  : BackgroundTaskManager :=
  {| data_manager := data_manager; task := None |}.

(** One pass through the body of [while True]. *)
Definition loop_body (self : BackgroundTaskManager) : M unit :=
  try_except
    (update_data_of (data_manager self) ;;
     asyncio_sleep 2)
    (fun e =>
       print (ERRO_loop e) ;;
       asyncio_sleep 2).

(** The first [n] passes of [while True]; the loop has no [break] and no
    [return], so it ends only by an exception that escapes the body. *)
Fixpoint while_true (self : BackgroundTaskManager) (n : nat) : M unit :=
  match n with
  | O => ret tt
  | S n' => loop_body self ;; while_true self n'
  end.

(** [data_update_loop], run for its first [n] passes: [Ok tt] says the
    loop is still running after them. *)
Definition data_update_loop (self : BackgroundTaskManager) (n : nat)
  : M unit :=
  print INFO_loop_starting ;;
  while_true self n.

(** [start]: the coroutine is handed to the event loop as a task. *)
Definition start (self : BackgroundTaskManager) : BackgroundTaskManager :=
  {| data_manager := data_manager self; task := Some TaskScheduled |}.

End BackgroundTaskManager.

Arguments BackgroundTaskManager D : clear implicits.

(* ====================================================================== *)
(** ** Drivers and reference values *)
(* ====================================================================== *)

(** [n] calls of [update_data], one after the other. *)
Fixpoint cycles (self : nat) (n : nat) : M unit :=
  match n with
  | O => ret tt
  | S n' => DataManager.update_data self ;; cycles self n'
  end.

(** [n] requests [GET /api/data], one after the other, with their
    responses. *)
Fixpoint requests (data_manager : nat) (n : nat)
  : M (list (option ProcessedRobotData)) :=
  match n with
  | O => ret []
  | S n' =>
      r <- get_robot_data data_manager ;;
      rs <- requests data_manager n' ;;
      ret (r :: rs)
  end.

(** What a cycle reads from its surroundings, written out: a cycle that
    starts when [p] draws and [c] clock readings have been made takes
    draws [p] to [p + 12] and clock readings [c] (the pallet's timestamp),
    [c + 1] (the record's) and [c + 2] (the log line's). *)
Module Reading.

Local Open Scope nat_scope.

Definition motor_at (r : RandomSource) (p : nat) (i : Z) : RawMotorData :=
  {| raw_id := i;
     raw_velocity :=
       PyFloat.round
         (uniform_at r p (PyFloat.of_Z 130) (PyFloat.of_Z 160)) 1;
     cm :=
       PyFloat.round
         (uniform_at r (1 + p) (PyFloat.of_Z 10) (PyFloat.of_Z 30)) 1;
     raw_temperature :=
       PyFloat.round
         (uniform_at r (2 + p) (PyFloat.of_Z 65) (PyFloat.of_Z 80)) 1 |}.

Definition axis_at (r : RandomSource) (p : nat) : float :=
  PyFloat.round (uniform_at r p (PyFloat.of_Z (-1)) (PyFloat.of_Z 1)) 2.

Definition raw_at (r : RandomSource) (clk : nat -> string) (p c : nat)
  : RawHardwareData :=
  {| raw_motors :=
       [motor_at r p 1; motor_at r (3 + p) 2; motor_at r (6 + p) 3];
     raw_pallet :=
       {| id_pallet := randint_at r (9 + p) 1 100;
          timestamp_raw := clk c |};
     raw_centroid :=
       {| centroid_x := axis_at r (10 + p);
          centroid_y := axis_at r (11 + p);
          centroid_z := axis_at r (12 + p) |} |}.

Definition snapshot_at (r : RandomSource) (clk : nat -> string) (p c : nat)
  : ProcessedRobotData :=
  DataProcessor.process_hardware_data (raw_at r clk p c).

Definition record_at (r : RandomSource) (clk : nat -> string) (p c : nat)
  : HistoricalRecord :=
  {| timestamp_coleta := clk (1 + c); data := snapshot_at r clk p c |}.

(** The snapshot and the record of the [k]-th cycle (from 0) after [w]. *)
Definition snapshot_of_cycle (w : World) (k : nat) : ProcessedRobotData :=
  snapshot_at (random w) (clock w)
    (13 * k + random_pos w) (3 * k + clock_pos w).

Definition record_of_cycle (w : World) (k : nat) : HistoricalRecord :=
  record_at (random w) (clock w)
    (13 * k + random_pos w) (3 * k + clock_pos w).

End Reading.

(** The world after one attempt to write [doc] at [path], with the line
    printed on success or the one printed by the handler. *)
Definition after_write (path : string) (doc : Document)
    (info : LogLine) (erro : exn -> LogLine) (w : World) : World :=
  let w1 := set_io_pos (S (io_pos w)) w in
  match io_fault w (io_pos w) with
  | IoOk =>
      set_stdout (stdout w ++ [info])
        (set_files (<[path := doc]> (files w)) w1)
  | IoOpenFails => set_stdout (stdout w ++ [erro OSError]) w1
  | IoWriteFails =>
      set_stdout (stdout w ++ [erro OSError])
        (set_files (<[path := truncated]> (files w)) w1)
  end.

(** The object after a cycle that started in [w]. *)
Definition updated (o : DataManagerObj) (w : World) : DataManagerObj :=
  let snap :=
    Reading.snapshot_at (random w) (clock w) (random_pos w) (clock_pos w) in
  let record :=
    Reading.record_at (random w) (clock w) (random_pos w) (clock_pos w) in
  DataManager.with_historical_data (historical_data o ++ [record])
    (DataManager.with_current_data (Some snap) o).

(** The world after a cycle on the object [o] at address [self]. *)
Definition after_update (self : nat) (o : DataManagerObj) (w : World)
  : World :=
  let o' := updated o w in
  let w1 :=
    set_heap (<[self := o']> (heap w))
      (set_clock_pos (2 + clock_pos w)%nat
         (set_random_pos (13 + random_pos w)%nat w)) in
  let w2 :=
    match current_data o' with
    | Some d =>
        after_write (data_path o') (dump_snapshot d)
          (INFO_current_saved (data_path o')) ERRO_current_save w1
    | None => w1
    end in
  let w3 :=
    after_write (hist_data_path o') (dump_history (historical_data o'))
      (INFO_hist_saved (length (historical_data o')) (hist_data_path o'))
      ERRO_hist_save w2 in
  set_stdout (stdout w3 ++ [INFO_updated (clock w (2 + clock_pos w)%nat)])
    (set_clock_pos (3 + clock_pos w)%nat w3).

(** What an attempt to load a file comes to: no attempt when there is no
    file, else what was read or the exception that stopped the reading. *)
Definition load_attempt {A : Type} (parse : Document -> DecodeError + A)
    (file : option Document) (fault : IoFault) : option (exn + A) :=
  match file with
  | None => None
  | Some doc =>
      Some
        match fault with
        | IoOk =>
            match parse doc with
            | inr a => inr a
            | inl err => inl (Decode err)
            end
        | _ => inl OSError
        end
  end.

(** The state a load leaves: what was read, or the state as it was. *)
Definition loaded_or {A : Type} (attempt : option (exn + A)) (before : A)
  : A :=
  match attempt with
  | Some (inr a) => a
  | _ => before
  end.

(** The same attempt, its value seen as the optional current snapshot. *)
Definition lift_loaded {A : Type} (attempt : option (exn + A))
  : option (exn + option A) :=
  match attempt with
  | None => None
  | Some (inl e) => Some (inl e)
  | Some (inr a) => Some (inr (Some a))
  end.

(** The line a load prints. *)
Definition load_lines {A : Type} (attempt : option (exn + A))
    (info : A -> LogLine) (aviso : exn -> LogLine) : list LogLine :=
  match attempt with
  | None => []
  | Some (inr a) => [info a]
  | Some (inl e) => [aviso e]
  end.

(** The file-system calls a load makes. *)
Definition load_calls {A : Type} (attempt : option (exn + A)) : nat :=
  match attempt with
  | None => 0
  | Some _ => 1
  end.

(** The world after [_load_current_from_disk] on the object [o]. *)
Definition after_load_current (self : nat) (o : DataManagerObj) (w : World)
  : World :=
  let attempt :=
    load_attempt as_snapshot (files w !! data_path o)
      (io_fault w (io_pos w)) in
  set_stdout
    (stdout w
     ++ load_lines attempt (fun _ => INFO_current_loaded (data_path o))
          AVISO_current_load)
    (set_heap
       (<[self := DataManager.with_current_data
                    (loaded_or (lift_loaded attempt) (current_data o))
                    o]> (heap w))
       (set_io_pos (load_calls attempt + io_pos w) w)).

(** The world after [_load_historical_from_disk] on the object [o]. *)
Definition after_load_historical (self : nat) (o : DataManagerObj)
    (w : World) : World :=
  let attempt :=
    load_attempt as_history (files w !! hist_data_path o)
      (io_fault w (io_pos w)) in
  set_stdout
    (stdout w
     ++ load_lines attempt (fun h => INFO_hist_loaded (length h))
          AVISO_hist_load)
    (set_heap
       (<[self := DataManager.with_historical_data
                    (loaded_or attempt (historical_data o)) o]> (heap w))
       (set_io_pos (load_calls attempt + io_pos w) w)).

(** The world after the first [__init__] of the object at [self], when the
    directory could be made. *)
Definition after_init (self : nat) (w : World) : World :=
  let fresh :=
    {| _initialized := true; current_data := None; historical_data := [];
       data_path := "data/robot_data.json";
       hist_data_path := "data/hist_data.json" |} in
  let w1 :=
    set_io_pos (S (io_pos w)) (set_heap (<[self := fresh]> (heap w)) w) in
  let current_attempt :=
    load_attempt as_snapshot (files w1 !! data_path fresh)
      (io_fault w1 (io_pos w1)) in
  let loaded :=
    DataManager.with_current_data
      (loaded_or (lift_loaded current_attempt) None) fresh in
  after_load_historical self loaded (after_load_current self fresh w1).

(** ** What the simulator is promised and what it promises *)

(** What the [random] module documents: [uniform(a, b)] returns a double
    [N] with [a <= N <= b], and [randint(a, b)] an integer [N] with
    [a <= N <= b]. *)
Definition random_contract (r : RandomSource) : Prop :=
  (forall (n : nat) (a b : float),
      PyFloat.valid a = true -> PyFloat.valid b = true ->
      PyFloat.leb a b = true ->
      PyFloat.valid (uniform_at r n a b) = true
      /\ PyFloat.leb a (uniform_at r n a b) = true
      /\ PyFloat.leb (uniform_at r n a b) b = true)
  /\ (forall (n : nat) (a b : Z),
        a <= b -> a <= randint_at r n a b <= b).

(** [v] lies in [[lo, hi]] and is the double of a decimal with [nd] digits
    after the point. *)
Definition rounded_within (lo hi : Z) (nd : nat) (v : float) : Prop :=
  PyFloat.leb (PyFloat.of_Z lo) v = true
  /\ PyFloat.leb v (PyFloat.of_Z hi) = true
  /\ exists (s : bool) (k : Z), 0 <= k /\ v = PyFloat.of_decimal s k nd.

(** *** Sample worlds *)

(** A random source that always returns the lower bound. *)
Definition low_random : RandomSource :=
  {| uniform_at := fun _ a _ => a; randint_at := fun _ a _ => a |}.

(** A clock whose [n]-th reading is the text ["T"] followed by [n] ticks. *)
Fixpoint ticking_clock (n : nat) : string :=
  match n with
  | O => "T"
  | S n' => ticking_clock n' +:+ "'"
  end.

(** A clock that gives the same reading every time, as one with a coarse
    resolution does within a cycle. *)
Definition stalled_clock (n : nat) : string := "2025-01-01T00:00:00+00:00".

(** A process that has just started on an empty disk. *)
Definition empty_world : World :=
  {| random := low_random; random_pos := 0;
     clock := ticking_clock; clock_pos := 0;
     io_fault := fun _ => IoOk; io_pos := 0;
     files := ∅; stdout := [];
     heap := []; DataManager_instance := None;
     cancel_at := fun _ => false; await_pos := 0; slept := [] |}.

(** The same, after the module's [data_manager = DataManager()]. *)
Definition booted_world : World := snd (DataManager.construct empty_world).

(** The object [DataManager()] builds on an empty disk. *)
Definition new_manager : DataManagerObj :=
  {| _initialized := true; current_data := None; historical_data := [];
     data_path := "data/robot_data.json";
     hist_data_path := "data/hist_data.json" |}.

(** A world whose disk refuses every call and whose manager is live. *)
Definition broken_disk_world : World :=
  {| random := low_random; random_pos := 0;
     clock := ticking_clock; clock_pos := 0;
     io_fault := fun _ => IoOpenFails; io_pos := 0;
     files := ∅; stdout := [];
     heap := [new_manager]; DataManager_instance := Some 0%nat;
     cancel_at := fun _ => false; await_pos := 0; slept := [] |}.

(** A world whose clock does not advance. *)
Definition stalled_world : World :=
  {| random := low_random; random_pos := 0;
     clock := stalled_clock; clock_pos := 0;
     io_fault := fun _ => IoOk; io_pos := 0;
     files := ∅; stdout := [];
     heap := [new_manager]; DataManager_instance := Some 0%nat;
     cancel_at := fun _ => false; await_pos := 0; slept := [] |}.

(** A record from an earlier run. *)
Definition old_record : HistoricalRecord :=
  Reading.record_at low_random ticking_clock 0 0.


(** ** The schedule the loop is meant to keep *)

(** One turn of the schedule: run the cycle; if it raised, print the
    error; then wait 2. *)
Definition scheduled_pass (cycle : M unit) (w : World) : World :=
  let (r, w1) := cycle w in
  let w2 :=
    match r with
    | Ok _ => w1
    | Raise e => set_stdout (stdout w1 ++ [ERRO_loop e]) w1
    end in
  set_slept (slept w2 ++ [2]) (set_await_pos (S (await_pos w2)) w2).

(** A cycle that awaits nothing: it leaves the task's scheduling alone. *)
Definition synchronous (cycle : M unit) : Prop :=
  forall w : World,
    await_pos (snd (cycle w)) = await_pos w
    /\ cancel_at (snd (cycle w)) = cancel_at w
    /\ slept (snd (cycle w)) = slept w.

(** A cycle that raises nothing outside the [Exception] hierarchy. *)
Definition raises_only_Exceptions (cycle : M unit) : Prop :=
  forall (w : World) (e : exn),
    fst (cycle w) = Raise e -> is_Exception e = true.

(** ** Sequences of calls *)

(** A call a client of the manager can make: [update_data()],
    [GET /api/data], [GET /api/hist_data], [DataManager()]. *)
Inductive Call :=
| CallUpdate
| CallGetData
| CallGetHist
| CallConstruct.

Definition run_call (data_manager : nat) (c : Call) : M unit :=
  match c with
  | CallUpdate => DataManager.update_data data_manager
  | CallGetData => get_robot_data data_manager ;; ret tt
  | CallGetHist => get_historical_data data_manager ;; ret tt
  | CallConstruct => DataManager.construct ;; ret tt
  end.

Fixpoint run_calls (data_manager : nat) (l : list Call) : M unit :=
  match l with
  | [] => ret tt
  | c :: l' => run_call data_manager c ;; run_calls data_manager l'
  end.

Definition has_current (o : DataManagerObj) : bool :=
  match current_data o with
  | Some _ => true
  | None => false
  end.

(** Whether a call runs an update cycle, given whether a snapshot is
    present when it is made. *)
Definition runs_cycle (c : Call) (present : bool) : bool :=
  match c with
  | CallUpdate => true
  | CallGetData => negb present
  | CallGetHist | CallConstruct => false
  end.

(** The number of update cycles a sequence of calls runs. *)
Fixpoint cycles_in (l : list Call) (present : bool) : nat :=
  match l with
  | [] => 0
  | c :: l' =>
      if runs_cycle c present then S (cycles_in l' true)
      else cycles_in l' present
  end.

(** The registered, initialized manager and its attributes. *)
Definition live (self : nat) (w : World) (o : DataManagerObj) : Prop :=
  DataManager_instance w = Some self
  /\ heap w !! self = Some o
  /\ _initialized o = true.

(** The process ends and a new one starts: the memory and the output are
    gone, the files and the surroundings stay. *)
Definition restart (w : World) : World :=
  set_stdout [] (set_heap [] (set_DataManager_instance None w)).

(** The current snapshot is the one in the last record of the history. *)
Definition in_step (o : DataManagerObj) : Prop :=
  current_data o = data <$> last (historical_data o).

(** A snapshot with the shape and the ranges of a simulated reading. *)
Definition snapshot_in_ranges (d : ProcessedRobotData) : Prop :=
  map motor_id (motors d) = [1; 2; 3]
  /\ (forall m : ProcessedMotor,
        In m (motors d) ->
        rounded_within 130 160 1 (velocity m)
        /\ rounded_within 10 30 1 (distance m)
        /\ rounded_within 65 80 1 (temperature m))
  /\ (exists p : ProcessedPallet,
        pallets d = [p] /\ 1 <= pallet_id p <= 100)
  /\ rounded_within (-1) 1 2 (x (centroid (giroscopio d)))
  /\ rounded_within (-1) 1 2 (y (centroid (giroscopio d)))
  /\ rounded_within (-1) 1 2 (z (centroid (giroscopio d))).

(** A process restarted on a disk that holds one snapshot and a history
    of one record. *)
Definition restarted_world : World :=
  restart (snd (DataManager.update_data 0 booted_world)).

(** A live manager on a disk whose next write breaks off after the file
    was opened, every later call going through. *)
Definition torn_write_world : World :=
  {| random := low_random; random_pos := 0;
     clock := ticking_clock; clock_pos := 0;
     io_fault := fun n => match n with O => IoWriteFails | S _ => IoOk end;
     io_pos := 0;
     files := ∅; stdout := [];
     heap := [new_manager]; DataManager_instance := Some 0%nat;
     cancel_at := fun _ => false; await_pos := 0; slept := [] |}.

(** A live manager on a disk that holds an older snapshot and refuses to
    open the next file for writing, every later call going through. *)
Definition refused_write_world : World :=
  {| random := low_random; random_pos := 13;
     clock := ticking_clock; clock_pos := 3;
     io_fault := fun n => match n with O => IoOpenFails | S _ => IoOk end;
     io_pos := 0;
     files := <["data/robot_data.json" := dump_snapshot (data old_record)]> ∅;
     stdout := [];
     heap := [new_manager]; DataManager_instance := Some 0%nat;
     cancel_at := fun _ => false; await_pos := 0; slept := [] |}.

(** A process starting where the data directory cannot be made. *)
Definition no_directory_world : World :=
  {| random := low_random; random_pos := 0;
     clock := ticking_clock; clock_pos := 0;
     io_fault := fun _ => IoOpenFails; io_pos := 0;
     files := ∅; stdout := [];
     heap := []; DataManager_instance := None;
     cancel_at := fun _ => false; await_pos := 0; slept := [] |}.

(** The world after the first [__init__] of the object at [self], by what
    the disk lets through: the directory, then the two existence checks. *)
Definition after_init_on (refused : string -> bool) (self : nat) (w : World)
  : Outcome unit * World :=
  let w1 :=
    set_io_pos (S (io_pos w))
      (set_heap (<[self := new_manager]> (heap w)) w) in
  match io_fault w (io_pos w) with
  | IoOk =>
      if refused "data/robot_data.json" then (Raise OSError, w1)
      else if refused "data/hist_data.json"
      then (Raise OSError, after_load_current self new_manager w1)
      else (Ok tt, after_init self w)
  | _ => (Raise OSError, w1)
  end.


(** A disk that gives the status of every path. *)
Definition searchable : string -> bool := fun _ => false.

(** A stand-in manager whose [update_data] raises every time. *)
Inductive FailingManager := failing_manager.

#[export] Instance FailingManager_like : DataManagerLike FailingManager :=
  fun _ => raise OSError.

(** Cases on the fate of the two writes of a cycle. *)
Ltac by_disk_cases w :=
  unfold after_update, after_write; cbn;
  destruct (io_fault w (io_pos w)); cbn;
  destruct (io_fault w (S (io_pos w))); reflexivity.

(* ====================================================================== *)
(** * Properties *)
(* ====================================================================== *)

(** ** The transformation *)

Lemma process_motors_lookup (l : list RawMotorData) (i : nat) :
  map DataProcessor.process_motor l !! i
  = DataProcessor.process_motor <$> (l !! i).
Proof.
  revert i. induction l as [|m l IH]; intros [|i]; simpl; auto.
Qed.

(** C2. [process_hardware_data] only renames and regroups: the motor at
    each position keeps its id, velocity and temperature and gets the raw
    [cm] as its distance, motors keep their number and order; the one raw
    pallet becomes a one-element list with [id_pallet] as id and
    [timestamp_raw] as timestamp; the three orientation components are
    nested under [centroid]; every value is carried over as it is. *)
Theorem process_hardware_data_renames (raw : RawHardwareData) :
  let out := DataProcessor.process_hardware_data raw in
  length (motors out) = length (raw_motors raw)
  /\ (forall (i : nat) (m : RawMotorData),
        raw_motors raw !! i = Some m ->
        exists pm : ProcessedMotor,
          motors out !! i = Some pm
          /\ distance pm = cm m
          /\ motor_id pm = raw_id m
          /\ velocity pm = raw_velocity m
          /\ temperature pm = raw_temperature m)
  /\ (forall i : nat, raw_motors raw !! i = None -> motors out !! i = None)
  /\ pallets out
     = [ {| pallet_id := id_pallet (raw_pallet raw);
            timestamp := timestamp_raw (raw_pallet raw) |} ]
  /\ giroscopio out
     = {| centroid :=
            {| x := centroid_x (raw_centroid raw);
               y := centroid_y (raw_centroid raw);
               z := centroid_z (raw_centroid raw) |} |}.
Proof.
  simpl. repeat split.
  - apply length_map.
  - intros i m Hm. rewrite process_motors_lookup, Hm. simpl.
    eexists. split; [reflexivity|]. repeat split.
  - intros i Hi. rewrite process_motors_lookup, Hi. reflexivity.
Qed.

(** ** One update cycle *)

Lemma simulate_hardware_data_run (w : World) :
  DataSimulator.simulate_hardware_data w
  = (Ok (Reading.raw_at (random w) (clock w) (random_pos w) (clock_pos w)),
     set_clock_pos (1 + clock_pos w)%nat
       (set_random_pos (13 + random_pos w)%nat w)).
Proof. reflexivity. Qed.

Lemma bind_run {A B} (m : M A) (k : A -> M B) (w w' : World) (a : A) :
  m w = (Ok a, w') -> bind m k w = k a w'.
Proof. intros E. unfold bind. rewrite E. reflexivity. Qed.


Lemma get_self_run (self : nat) (o : DataManagerObj) (w : World) :
  heap w !! self = Some o -> DataManager.get_self self w = (Ok o, w).
Proof. intros E. unfold DataManager.get_self. rewrite E. reflexivity. Qed.

Lemma modify_self_run (self : nat) (o : DataManagerObj)
    (f : DataManagerObj -> DataManagerObj) (w : World) :
  heap w !! self = Some o ->
  DataManager.modify_self self f w
  = (Ok tt, set_heap (<[self := f o]> (heap w)) w).
Proof. intros E. unfold DataManager.modify_self. rewrite E. reflexivity. Qed.

Lemma lookup_after_insert (l : list DataManagerObj) (self : nat)
    (o o' : DataManagerObj) :
  l !! self = Some o -> <[self := o']> l !! self = Some o'.
Proof. intros E. apply list_lookup_insert_eq. eapply lookup_lt_Some, E. Qed.

Lemma try_write_run (path : string) (doc : Document) (info : LogLine)
    (erro : exn -> LogLine) (w : World) :
  try_except (open_write path doc ;; print info) (fun e => print (erro e)) w
  = (Ok tt, after_write path doc info erro w).
Proof.
  unfold try_except, open_write, after_write, bind, next_io, print, raise.
  destruct (io_fault w (io_pos w)); reflexivity.
Qed.

Lemma after_write_heap path doc info erro (w : World) :
  heap (after_write path doc info erro w) = heap w.
Proof. unfold after_write. destruct (io_fault w (io_pos w)); reflexivity. Qed.

Lemma add_to_historical_run (self : nat) (o : DataManagerObj)
    (d : ProcessedRobotData) (w : World) :
  heap w !! self = Some o ->
  DataManager._add_to_historical self d w
  = (Ok tt,
     set_heap
       (<[self := DataManager.with_historical_data
                    (historical_data o
                     ++ [{| timestamp_coleta := clock w (clock_pos w);
                            data := d |}]) o]> (heap w))
       (set_clock_pos (S (clock_pos w)) w)).
Proof.
  intros E. unfold DataManager._add_to_historical, datetime_now.
  unfold bind at 1. erewrite bind_run by (apply get_self_run; exact E).
  erewrite modify_self_run by exact E. reflexivity.
Qed.

Lemma save_current_run (self : nat) (o : DataManagerObj) (w : World) :
  heap w !! self = Some o ->
  DataManager._save_current_to_disk self w
  = (Ok tt,
     match current_data o with
     | Some d =>
         after_write (data_path o) (dump_snapshot d)
           (INFO_current_saved (data_path o)) ERRO_current_save w
     | None => w
     end).
Proof.
  intros E. unfold DataManager._save_current_to_disk.
  erewrite bind_run by (apply get_self_run; exact E).
  destruct (current_data o); [apply try_write_run | reflexivity].
Qed.

Lemma save_historical_run (self : nat) (o : DataManagerObj) (w : World) :
  heap w !! self = Some o ->
  DataManager._save_historical_to_disk self w
  = (Ok tt,
     after_write (hist_data_path o) (dump_history (historical_data o))
       (INFO_hist_saved (length (historical_data o)) (hist_data_path o))
       ERRO_hist_save w).
Proof.
  intros E. unfold DataManager._save_historical_to_disk.
  erewrite bind_run by (apply get_self_run; exact E).
  apply try_write_run.
Qed.

(** A cycle on a live object returns normally, whatever the disk does, and
    leaves exactly [after_update]. *)
Lemma update_data_run (self : nat) (o : DataManagerObj) (w : World) :
  heap w !! self = Some o ->
  DataManager.update_data self w = (Ok tt, after_update self o w).
Proof.
  intros E. unfold DataManager.update_data.
  rewrite (bind_run _ _ _ _ _ (simulate_hardware_data_run w)).
  erewrite bind_run by (apply modify_self_run; exact E).
  erewrite bind_run
    by (apply add_to_historical_run; eapply lookup_after_insert, E).
  cbn [heap set_heap set_clock_pos set_random_pos clock clock_pos].
  rewrite list_insert_insert_eq.
  erewrite bind_run
    by (apply save_current_run; cbn [heap set_heap];
        eapply lookup_after_insert, E).
  erewrite bind_run
    by (apply save_historical_run;
        cbn [current_data DataManager.with_historical_data
             DataManager.with_current_data];
        rewrite after_write_heap; cbn [heap set_heap];
        eapply lookup_after_insert, E).
  unfold after_update, updated, after_write, Reading.record_at,
    Reading.snapshot_at, bind, datetime_now, print.
  cbn.
  destruct (io_fault w (io_pos w)); cbn;
    destruct (io_fault w (S (io_pos w))); reflexivity.
Qed.

(** What a cycle leaves alone, and how far it moves the cursors. *)
Lemma after_update_heap self o w :
  heap (after_update self o w) = <[self := updated o w]> (heap w).
Proof. by_disk_cases w. Qed.

Lemma after_update_random self o w :
  random (after_update self o w) = random w.
Proof. by_disk_cases w. Qed.

Lemma after_update_random_pos self o w :
  random_pos (after_update self o w) = (13 + random_pos w)%nat.
Proof. by_disk_cases w. Qed.

Lemma after_update_clock self o w :
  clock (after_update self o w) = clock w.
Proof. by_disk_cases w. Qed.

Lemma after_update_clock_pos self o w :
  clock_pos (after_update self o w) = (3 + clock_pos w)%nat.
Proof. by_disk_cases w. Qed.

Lemma after_update_instance self o w :
  DataManager_instance (after_update self o w) = DataManager_instance w.
Proof. by_disk_cases w. Qed.

Lemma after_update_cancel_at self o w :
  cancel_at (after_update self o w) = cancel_at w.
Proof. by_disk_cases w. Qed.

Lemma after_update_await_pos self o w :
  await_pos (after_update self o w) = await_pos w.
Proof. by_disk_cases w. Qed.

Lemma after_update_slept self o w :
  slept (after_update self o w) = slept w.
Proof. by_disk_cases w. Qed.

Lemma after_update_lookup self o w :
  heap w !! self = Some o ->
  heap (after_update self o w) !! self = Some (updated o w).
Proof.
  intros E. rewrite after_update_heap. eapply lookup_after_insert, E.
Qed.

Lemma record_of_cycle_shift self o w k :
  Reading.record_of_cycle (after_update self o w) k
  = Reading.record_of_cycle w (S k).
Proof.
  unfold Reading.record_of_cycle.
  rewrite after_update_random, after_update_clock,
    after_update_random_pos, after_update_clock_pos.
  f_equal; lia.
Qed.

Lemma snapshot_of_cycle_shift self o w k :
  Reading.snapshot_of_cycle (after_update self o w) k
  = Reading.snapshot_of_cycle w (S k).
Proof.
  unfold Reading.snapshot_of_cycle.
  rewrite after_update_random, after_update_clock,
    after_update_random_pos, after_update_clock_pos.
  f_equal; lia.
Qed.


(** ** Runs of cycles *)

(** [n] cycles on a live object all return, append their records in call
    order behind what was there, and leave everything else of the object
    as it was. *)
Lemma cycles_run (self : nat) (n : nat) :
  forall (w : World) (o : DataManagerObj),
    heap w !! self = Some o ->
    exists (w' : World) (o' : DataManagerObj),
      cycles self n w = (Ok tt, w')
      /\ heap w' !! self = Some o'
      /\ historical_data o'
         = historical_data o ++ map (Reading.record_of_cycle w) (seq 0 n)
      /\ current_data o'
         = match n with
           | O => current_data o
           | S k => Some (Reading.snapshot_of_cycle w k)
           end
      /\ _initialized o' = _initialized o
      /\ data_path o' = data_path o
      /\ hist_data_path o' = hist_data_path o
      /\ DataManager_instance w' = DataManager_instance w.
Proof.
  induction n as [|n IH]; intros w o E.
  - exists w, o. simpl. rewrite app_nil_r. repeat split; auto.
  - destruct (IH (after_update self o w) (updated o w)
                (after_update_lookup _ _ _ E))
      as (w' & o' & Hrun & Hlook & Hhist & Hcur & Hini & Hp1 & Hp2 & Hinst).
    exists w', o'. split.
    { simpl. erewrite bind_run by (apply update_data_run; exact E).
      exact Hrun. }
    split; [exact Hlook|]. split.
    { rewrite Hhist. cbn [updated historical_data
        DataManager.with_historical_data DataManager.with_current_data].
      rewrite <- app_assoc. f_equal.
      change (seq 0 (S n)) with (0%nat :: seq 1 n).
      rewrite <- seq_shift. simpl. f_equal. rewrite map_map.
      apply map_ext. intros k. apply record_of_cycle_shift. }
    split.
    { rewrite Hcur. destruct n as [|k].
      - reflexivity.
      - rewrite snapshot_of_cycle_shift. reflexivity. }
    rewrite Hini, Hp1, Hp2, Hinst, after_update_instance.
    repeat split.
Qed.

(** The cursors after [n] cycles: each cycle makes 13 draws and reads the
    clock 3 times. *)
Lemma cycles_cursors (self : nat) (n : nat) :
  forall (w : World) (o : DataManagerObj),
    heap w !! self = Some o ->
    exists w' : World,
      cycles self n w = (Ok tt, w')
      /\ random w' = random w
      /\ random_pos w' = (13 * n + random_pos w)%nat
      /\ clock w' = clock w
      /\ clock_pos w' = (3 * n + clock_pos w)%nat.
Proof.
  induction n as [|n IH]; intros w o E.
  - exists w. repeat split.
  - destruct (IH (after_update self o w) (updated o w)
                (after_update_lookup _ _ _ E))
      as (w' & Hrun & Hr & Hrp & Hc & Hcp).
    exists w'. split.
    { simpl. erewrite bind_run by (apply update_data_run; exact E).
      exact Hrun. }
    rewrite Hr, Hrp, Hc, Hcp, after_update_random, after_update_random_pos,
      after_update_clock, after_update_clock_pos.
    repeat split; lia.
Qed.

(** C1. From a state with no snapshot and no history, [n] calls of
    [update_data] all return and leave a history of exactly [n] records,
    the [k]-th being the record of the [k]-th call, and as current
    snapshot the one the last call produced, whole.  From any state, each
    call appends its one record behind those already there. *)
Theorem history_after_n_cycles (self n : nat) (w : World)
    (o : DataManagerObj) :
  heap w !! self = Some o ->
  exists (w' : World) (o' : DataManagerObj),
    cycles self n w = (Ok tt, w')
    /\ heap w' !! self = Some o'
    /\ historical_data o'
       = historical_data o ++ map (Reading.record_of_cycle w) (seq 0 n)
    /\ (historical_data o = [] ->
        length (historical_data o') = n
        /\ forall k : nat,
             (k < n)%nat ->
             historical_data o' !! k = Some (Reading.record_of_cycle w k))
    /\ current_data o'
       = match n with
         | O => current_data o
         | S k => Some (Reading.snapshot_of_cycle w k)
         end
    /\ (forall k : nat,
          n = S k ->
          Some (data (Reading.record_of_cycle w k)) = current_data o')
    /\ (forall k : nat,
          (k < n)%nat ->
          exists (wk wk' : World) (raw : RawHardwareData),
            cycles self k w = (Ok tt, wk)
            /\ DataSimulator.simulate_hardware_data wk = (Ok raw, wk')
            /\ Reading.record_of_cycle w k
               = {| timestamp_coleta := clock wk (S (clock_pos wk));
                    data := DataProcessor.process_hardware_data raw |}).
Proof.
  intros E.
  destruct (cycles_run self n w o E)
    as (w' & o' & Hrun & Hlook & Hhist & Hcur & _).
  exists w', o'.
  split; [exact Hrun|]. split; [exact Hlook|]. split; [exact Hhist|].
  split; [|split; [exact Hcur|split]].
  - intros Hempty. rewrite Hhist, Hempty. simpl. split.
    + rewrite length_map, length_seq. reflexivity.
    + intros k Hk.
      change (map (Reading.record_of_cycle w) (seq 0 n))
        with (Reading.record_of_cycle w <$> seq 0 n).
      rewrite list_lookup_fmap, lookup_seq_lt by exact Hk. reflexivity.
  - intros k ->. rewrite Hcur. reflexivity.
  - intros k _.
    destruct (cycles_cursors self k w o E) as (wk & Hk & Hr & Hrp & Hc & Hcp).
    eexists wk, _, _. split; [exact Hk|].
    split; [apply simulate_hardware_data_run|].
    rewrite Hr, Hrp, Hc, Hcp. reflexivity.
Qed.

Lemma history_after_n_cycles_witness :
  exists (w' : World) (o' : DataManagerObj),
    cycles 0 2 booted_world = (Ok tt, w')
    /\ heap w' !! 0%nat = Some o'
    /\ historical_data o'
       = [] ++ map (Reading.record_of_cycle booted_world) (seq 0 2)
    /\ length (historical_data o') = 2%nat
    /\ current_data o' = Some (Reading.snapshot_of_cycle booted_world 1).
Proof.
  destruct (history_after_n_cycles 0 2 booted_world new_manager)
    as (w' & o' & Hrun & Hlook & Hhist & Hlen & Hcur & _);
    [vm_compute; reflexivity|].
  exists w', o'. repeat split; auto.
  apply Hlen. reflexivity.
Defined.

(** ** Reading the current data *)

(** C4. A request for the current data that finds no snapshot runs exactly
    one update cycle before it answers: its effect on the world is that of
    one call of [update_data], its answer is the snapshot of that cycle,
    and the history has one record more.  A request that finds a snapshot
    runs no cycle: it answers with it and leaves the world as it was. *)
Theorem get_robot_data_bootstrap (data_manager : nat) (w : World)
    (o : DataManagerObj) :
  heap w !! data_manager = Some o ->
  (current_data o = None ->
   exists (snap : ProcessedRobotData) (w' : World) (o' : DataManagerObj),
     get_robot_data data_manager w = (Ok (Some snap), w')
     /\ DataManager.update_data data_manager w = (Ok tt, w')
     /\ heap w' !! data_manager = Some o'
     /\ current_data o' = Some snap
     /\ snap = Reading.snapshot_of_cycle w 0
     /\ historical_data o'
        = historical_data o ++ [Reading.record_of_cycle w 0]
     /\ length (historical_data o') = S (length (historical_data o)))
  /\ (forall d : ProcessedRobotData,
        current_data o = Some d ->
        get_robot_data data_manager w = (Ok (Some d), w)).
Proof.
  intros E. split.
  - intros Hnone.
    exists (Reading.snapshot_of_cycle w 0), (after_update data_manager o w),
      (updated o w).
    pose proof (after_update_lookup _ _ _ E) as E'.
    split.
    { unfold get_robot_data, DataManager.get_current_data.
      erewrite bind_run
        by (erewrite bind_run by (apply get_self_run; exact E);
            reflexivity).
      rewrite Hnone.
      erewrite bind_run by (apply update_data_run; exact E).
      erewrite bind_run
        by (erewrite bind_run by (apply get_self_run; exact E');
            reflexivity).
      reflexivity. }
    split; [apply update_data_run; exact E|].
    split; [exact E'|].
    repeat split.
    simpl. rewrite length_app. simpl. lia.
  - intros d Hd.
    unfold get_robot_data, DataManager.get_current_data.
    erewrite bind_run
      by (erewrite bind_run by (apply get_self_run; exact E); reflexivity).
    rewrite Hd. reflexivity.
Qed.

Lemma get_robot_data_bootstrap_witness :
  exists (snap : ProcessedRobotData) (w' : World),
    get_robot_data 0 booted_world = (Ok (Some snap), w')
    /\ DataManager.update_data 0 booted_world = (Ok tt, w')
    /\ get_robot_data 0 w' = (Ok (Some snap), w').
Proof.
  destruct (get_robot_data_bootstrap 0 booted_world new_manager)
    as [Hboot _]; [vm_compute; reflexivity|].
  destruct (Hboot eq_refl)
    as (snap & w' & o' & Hget & Hupd & Hlook & Hcur & _).
  exists snap, w'. split; [exact Hget|]. split; [exact Hupd|].
  destruct (get_robot_data_bootstrap 0 w' o' Hlook) as [_ Hkeep].
  apply Hkeep, Hcur.
Defined.

(** C8. While a snapshot is present and no cycle runs in between, any
    number of requests for the current data all get that same snapshot,
    and the world (current snapshot and history included) is left as it
    was; [get_current_data] itself returns the snapshot and changes
    nothing. *)
Theorem get_robot_data_idempotent (data_manager n : nat) (w : World)
    (o : DataManagerObj) (d : ProcessedRobotData) :
  heap w !! data_manager = Some o ->
  current_data o = Some d ->
  DataManager.get_current_data data_manager w = (Ok (Some d), w)
  /\ get_robot_data data_manager w = (Ok (Some d), w)
  /\ requests data_manager n w = (Ok (repeat (Some d) n), w).
Proof.
  intros E Hd.
  assert (Hget : DataManager.get_current_data data_manager w
                 = (Ok (Some d), w)).
  { unfold DataManager.get_current_data.
    erewrite bind_run by (apply get_self_run; exact E).
    rewrite Hd. reflexivity. }
  assert (Hreq : get_robot_data data_manager w = (Ok (Some d), w)).
  { unfold get_robot_data. erewrite bind_run by exact Hget. reflexivity. }
  split; [exact Hget|]. split; [exact Hreq|].
  induction n as [|n IH]; [reflexivity|].
  simpl. erewrite bind_run by exact Hreq.
  erewrite bind_run by exact IH. reflexivity.
Qed.

Lemma get_robot_data_idempotent_witness :
  let w := snd (DataManager.update_data 0 booted_world) in
  let d := Reading.snapshot_of_cycle booted_world 0 in
  requests 0 3 w = (Ok [Some d; Some d; Some d], w).
Proof.
  intros w d.
  apply (get_robot_data_idempotent 0 3 w (updated new_manager booted_world) d);
    vm_compute; reflexivity.
Defined.

(** ** Persistence failures *)

(** The line a save prints, by the fate of its write. *)
Lemma after_update_stdout self o w :
  stdout (after_update self o w)
  = stdout w
    ++ [match io_fault w (io_pos w) with
        | IoOk => INFO_current_saved (data_path o)
        | _ => ERRO_current_save OSError
        end;
        match io_fault w (S (io_pos w)) with
        | IoOk =>
            INFO_hist_saved (length (historical_data (updated o w)))
              (hist_data_path o)
        | _ => ERRO_hist_save OSError
        end;
        INFO_updated (clock w (2 + clock_pos w)%nat)].
Proof.
  unfold after_update, after_write; cbn.
  destruct (io_fault w (io_pos w)); cbn;
    destruct (io_fault w (S (io_pos w))); cbn;
    rewrite <- ?app_assoc; reflexivity.
Qed.

(** C5. Whatever happens to the two writes of a cycle, each save step
    returns normally, having printed an error line when its write failed;
    the cycle returns normally; and the memory keeps the mutation: the
    current snapshot is the new one and the history ends with the new
    record. *)
Theorem persistence_failure_contained (self : nat) (w : World)
    (o : DataManagerObj) :
  heap w !! self = Some o ->
  (forall (w1 : World) (o1 : DataManagerObj),
      heap w1 !! self = Some o1 ->
      fst (DataManager._save_current_to_disk self w1) = Ok tt
      /\ fst (DataManager._save_historical_to_disk self w1) = Ok tt)
  /\ exists (w' : World) (o' : DataManagerObj),
       DataManager.update_data self w = (Ok tt, w')
       /\ heap w' !! self = Some o'
       /\ current_data o' = Some (Reading.snapshot_of_cycle w 0)
       /\ historical_data o'
          = historical_data o ++ [Reading.record_of_cycle w 0]
       /\ (io_fault w (io_pos w) <> IoOk ->
           stdout w' !! length (stdout w) = Some (ERRO_current_save OSError))
       /\ (io_fault w (S (io_pos w)) <> IoOk ->
           stdout w' !! S (length (stdout w))
           = Some (ERRO_hist_save OSError)).
Proof.
  intros E. split.
  - intros w1 o1 E1.
    rewrite (save_current_run _ _ _ E1), (save_historical_run _ _ _ E1).
    split; reflexivity.
  - exists (after_update self o w), (updated o w).
    split; [apply update_data_run; exact E|].
    split; [apply after_update_lookup; exact E|].
    split; [reflexivity|]. split; [reflexivity|].
    rewrite after_update_stdout. split; intros Hfail.
    + rewrite lookup_app_r by lia. rewrite Nat.sub_diag. simpl.
      destruct (io_fault w (io_pos w)); congruence.
    + rewrite lookup_app_r by lia.
      replace (S (length (stdout w)) - length (stdout w))%nat with 1%nat
        by lia.
      simpl. destruct (io_fault w (S (io_pos w))); congruence.
Qed.

Lemma persistence_failure_contained_witness :
  exists (w' : World) (o' : DataManagerObj),
    DataManager.update_data 0 broken_disk_world = (Ok tt, w')
    /\ heap w' !! 0%nat = Some o'
    /\ current_data o' = Some (Reading.snapshot_of_cycle broken_disk_world 0)
    /\ historical_data o' = [Reading.record_of_cycle broken_disk_world 0]
    /\ stdout w' !! 0%nat = Some (ERRO_current_save OSError)
    /\ stdout w' !! 1%nat = Some (ERRO_hist_save OSError)
    /\ files w' = ∅.
Proof.
  destruct (persistence_failure_contained 0 broken_disk_world new_manager)
    as [_ (w' & o' & Hrun & Hlook & Hcur & Hhist & Hlog1 & Hlog2)];
    [vm_compute; reflexivity|].
  exists w', o'.
  split; [exact Hrun|]. split; [exact Hlook|]. split; [exact Hcur|].
  split; [exact Hhist|].
  split; [apply Hlog1; discriminate|].
  split; [apply Hlog2; discriminate|].
  rewrite (update_data_run 0 new_manager) in Hrun by reflexivity.
  injection Hrun as <-. reflexivity.
Defined.

(** ** The two timestamps of a record *)

(** The claim C9 as stated fails when the clock gives the same reading
    twice: the record of the cycle then carries the very timestamp of the
    pallet inside it. *)
Lemma stalled_clock_equal_timestamps :
  exists (w' : World) (o' : DataManagerObj) (r : HistoricalRecord)
         (p : ProcessedPallet),
    DataManager.update_data 0 stalled_world = (Ok tt, w')
    /\ heap w' !! 0%nat = Some o'
    /\ last (historical_data o') = Some r
    /\ pallets (data r) = [p]
    /\ timestamp_coleta r = timestamp p.
Proof.
  exists (after_update 0 new_manager stalled_world),
    (updated new_manager stalled_world),
    (Reading.record_of_cycle stalled_world 0),
    {| pallet_id := 1; timestamp := "2025-01-01T00:00:00+00:00" |}.
  split; [apply update_data_run; reflexivity|].
  repeat split.
Qed.

(** C9, amended.  The record a cycle appends carries the reading the clock
    gives when the record is built, a later reading than the one stored as
    the pallet's timestamp in the snapshot it wraps; the two texts differ
    exactly when those two readings of the clock differ. *)
Theorem record_timestamp_is_a_later_reading (self : nat) (w : World)
    (o : DataManagerObj) :
  heap w !! self = Some o ->
  exists (w' : World) (o' : DataManagerObj) (r : HistoricalRecord)
         (p : ProcessedPallet),
    DataManager.update_data self w = (Ok tt, w')
    /\ heap w' !! self = Some o'
    /\ historical_data o' = historical_data o ++ [r]
    /\ current_data o' = Some (data r)
    /\ pallets (data r) = [p]
    /\ timestamp p = clock w (clock_pos w)
    /\ timestamp_coleta r = clock w (S (clock_pos w))
    /\ (timestamp_coleta r <> timestamp p
        <-> clock w (S (clock_pos w)) <> clock w (clock_pos w)).
Proof.
  intros E.
  exists (after_update self o w), (updated o w),
    (Reading.record_of_cycle w 0),
    (DataProcessor.process_pallet
       (raw_pallet
          (Reading.raw_at (random w) (clock w) (random_pos w)
             (clock_pos w)))).
  split; [apply update_data_run; exact E|].
  split; [apply after_update_lookup; exact E|].
  repeat split; auto.
Qed.

Lemma record_timestamp_is_a_later_reading_witness :
  exists (w' : World) (o' : DataManagerObj) (r : HistoricalRecord)
         (p : ProcessedPallet),
    DataManager.update_data 0 booted_world = (Ok tt, w')
    /\ heap w' !! 0%nat = Some o'
    /\ historical_data o' = [r]
    /\ pallets (data r) = [p]
    /\ timestamp p = "T"
    /\ timestamp_coleta r = "T'"
    /\ timestamp_coleta r <> timestamp p.
Proof.
  destruct (record_timestamp_is_a_later_reading 0 booted_world new_manager)
    as (w' & o' & r & p & Hrun & Hlook & Hhist & _ & Hp & Ht & Htc & Hne);
    [vm_compute; reflexivity|].
  exists w', o', r, p.
  split; [exact Hrun|]. split; [exact Hlook|]. split; [exact Hhist|].
  split; [exact Hp|]. split; [exact Ht|]. split; [exact Htc|].
  apply Hne. discriminate.
Defined.

(** ** Construction *)



Lemma with_current_data_same (o : DataManagerObj) :
  DataManager.with_current_data (current_data o) o = o.
Proof. destruct o; reflexivity. Qed.

Lemma with_historical_data_same (o : DataManagerObj) :
  DataManager.with_historical_data (historical_data o) o = o.
Proof. destruct o; reflexivity. Qed.

Lemma set_nothing (w : World) :
  set_stdout (stdout w ++ [])
    (set_heap (heap w) (set_io_pos (0 + io_pos w) w)) = w.
Proof. rewrite app_nil_r. destruct w; reflexivity. Qed.

Lemma load_current_run (self : nat) (o : DataManagerObj) (w : World) :
  heap w !! self = Some o ->
  DataManager._load_current_from_disk self w
  = (Ok tt, after_load_current self o w).
Proof.
  intros E. unfold DataManager._load_current_from_disk.
  erewrite bind_run by (apply get_self_run; exact E).
  unfold after_load_current, load_attempt, path_exists, bind at 1.
  destruct (files w !! data_path o) as [doc|] eqn:Hfile; cbn.
  - unfold try_except, bind, open_read, next_io, load_snapshot, raise, ret,
      print.
    cbn. destruct (io_fault w (io_pos w)); cbn.
    + rewrite Hfile. destruct (as_snapshot doc) as [err|d]; cbn.
      * rewrite with_current_data_same, list_insert_id by exact E.
        reflexivity.
      * unfold DataManager.modify_self. cbn. rewrite E. reflexivity.
    + rewrite with_current_data_same, list_insert_id by exact E.
      reflexivity.
    + rewrite with_current_data_same, list_insert_id by exact E.
      reflexivity.
  - rewrite with_current_data_same, list_insert_id by exact E.
    unfold ret. rewrite set_nothing. reflexivity.
Qed.

Lemma load_historical_run (self : nat) (o : DataManagerObj) (w : World) :
  heap w !! self = Some o ->
  DataManager._load_historical_from_disk self w
  = (Ok tt, after_load_historical self o w).
Proof.
  intros E. unfold DataManager._load_historical_from_disk.
  erewrite bind_run by (apply get_self_run; exact E).
  unfold after_load_historical, load_attempt, path_exists, bind at 1.
  destruct (files w !! hist_data_path o) as [doc|] eqn:Hfile; cbn.
  - unfold try_except, bind, open_read, next_io, load_history, raise, ret,
      print.
    cbn. destruct (io_fault w (io_pos w)); cbn.
    + rewrite Hfile. destruct (as_history doc) as [err|h]; cbn.
      * rewrite with_historical_data_same, list_insert_id by exact E.
        reflexivity.
      * unfold DataManager.modify_self. cbn. rewrite E. reflexivity.
    + rewrite with_historical_data_same, list_insert_id by exact E.
      reflexivity.
    + rewrite with_historical_data_same, list_insert_id by exact E.
      reflexivity.
  - rewrite with_historical_data_same, list_insert_id by exact E.
    unfold ret. rewrite set_nothing. reflexivity.
Qed.

Lemma after_load_current_lookup self o w :
  heap w !! self = Some o ->
  heap (after_load_current self o w) !! self
  = Some
      (DataManager.with_current_data
         (loaded_or
            (lift_loaded
               (load_attempt as_snapshot (files w !! data_path o)
                  (io_fault w (io_pos w))))
            (current_data o)) o).
Proof. intros E. cbn. eapply lookup_after_insert, E. Qed.

Lemma new_run_first (w : World) :
  DataManager_instance w = None ->
  DataManager.__new__ w
  = (Ok (length (heap w)),
     set_DataManager_instance (Some (length (heap w)))
       (set_heap (heap w ++ [DataManager.blank]) w)).
Proof. intros E. unfold DataManager.__new__. rewrite E. reflexivity. Qed.

Lemma new_run_again (self : nat) (w : World) :
  DataManager_instance w = Some self ->
  DataManager.__new__ w = (Ok self, w).
Proof. intros E. unfold DataManager.__new__. rewrite E. reflexivity. Qed.

Lemma init_run_again (self : nat) (o : DataManagerObj) (w : World) :
  heap w !! self = Some o -> _initialized o = true ->
  DataManager.__init__ self w = (Ok tt, w).
Proof.
  intros E Hinit. unfold DataManager.__init__.
  erewrite bind_run by (apply get_self_run; exact E).
  rewrite Hinit. reflexivity.
Qed.

Lemma init_run_first (self : nat) (o : DataManagerObj) (w : World) :
  heap w !! self = Some o -> _initialized o = false ->
  DataManager.__init__ self w
  = match io_fault w (io_pos w) with
    | IoOk => (Ok tt, after_init self w)
    | _ =>
        (Raise OSError,
         set_io_pos (S (io_pos w))
           (set_heap (<[self := new_manager]> (heap w)) w))
    end.
Proof.
  intros E Hinit. unfold DataManager.__init__.
  erewrite bind_run by (apply get_self_run; exact E).
  rewrite Hinit.
  do 5 (erewrite bind_run;
        [|apply modify_self_run; cbn [heap set_heap];
          first [exact E | eapply lookup_after_insert, E]];
        cbn [heap set_heap]; rewrite ?list_insert_insert_eq).
  erewrite bind_run
    by (apply get_self_run; cbn [heap set_heap];
        eapply lookup_after_insert, E).
  cbn [DataManager.with_initialized DataManager.with_hist_data_path
       DataManager.with_data_path DataManager.with_historical_data
       DataManager.with_current_data _initialized current_data
       historical_data data_path hist_data_path].
  unfold mkdir_parent, next_io, bind at 1 2. cbn.
  destruct (io_fault w (io_pos w)); try reflexivity.
  unfold ret at 1.
  erewrite bind_run
    by (apply load_current_run; cbn [heap set_heap set_io_pos];
        eapply lookup_after_insert, E).
  erewrite load_historical_run
    by (apply after_load_current_lookup; cbn [heap set_heap set_io_pos];
        eapply lookup_after_insert, E).
  reflexivity.
Qed.

Lemma after_load_historical_lookup self o w :
  heap w !! self = Some o ->
  heap (after_load_historical self o w) !! self
  = Some
      (DataManager.with_historical_data
         (loaded_or
            (load_attempt as_history (files w !! hist_data_path o)
               (io_fault w (io_pos w)))
            (historical_data o)) o).
Proof. intros E. cbn. eapply lookup_after_insert, E. Qed.

(** The first [DataManager()] of a process, when the directory could be
    made: what it returns and the world it leaves. *)
Lemma construct_run_first (w : World) :
  DataManager_instance w = None ->
  io_fault w (io_pos w) = IoOk ->
  DataManager.construct w
  = (Ok (length (heap w)),
     after_init (length (heap w))
       (set_DataManager_instance (Some (length (heap w)))
          (set_heap (heap w ++ [DataManager.blank]) w))).
Proof.
  intros Hnone Hdir. unfold DataManager.construct.
  erewrite bind_run by (apply new_run_first; exact Hnone).
  erewrite bind_run.
  2:{ erewrite init_run_first; cbn [heap set_heap set_DataManager_instance].
      - cbn [io_fault io_pos set_heap set_DataManager_instance].
        rewrite Hdir. reflexivity.
      - apply list_lookup_middle. reflexivity.
      - reflexivity. }
  reflexivity.
Qed.

(** *** Construction on a disk that can refuse an existence check *)

Lemma load_current_on (refused : string -> bool) (self : nat)
    (o : DataManagerObj) (w : World) :
  heap w !! self = Some o ->
  OnDisk._load_current_from_disk refused self w
  = if refused (data_path o) then (Raise OSError, w)
    else (Ok tt, after_load_current self o w).
Proof.
  intros E. destruct (refused (data_path o)) eqn:Hr.
  - unfold OnDisk._load_current_from_disk.
    erewrite bind_run by (apply get_self_run; exact E).
    unfold bind, OnDisk.path_exists. rewrite Hr. reflexivity.
  - rewrite <- (load_current_run self o w E).
    unfold OnDisk._load_current_from_disk,
      DataManager._load_current_from_disk.
    unfold bind at 1 2 5 6, DataManager.get_self, OnDisk.path_exists,
      path_exists.
    rewrite E, Hr. reflexivity.
Qed.

Lemma load_historical_on (refused : string -> bool) (self : nat)
    (o : DataManagerObj) (w : World) :
  heap w !! self = Some o ->
  OnDisk._load_historical_from_disk refused self w
  = if refused (hist_data_path o) then (Raise OSError, w)
    else (Ok tt, after_load_historical self o w).
Proof.
  intros E. destruct (refused (hist_data_path o)) eqn:Hr.
  - unfold OnDisk._load_historical_from_disk.
    erewrite bind_run by (apply get_self_run; exact E).
    unfold bind, OnDisk.path_exists. rewrite Hr. reflexivity.
  - rewrite <- (load_historical_run self o w E).
    unfold OnDisk._load_historical_from_disk,
      DataManager._load_historical_from_disk.
    unfold bind at 1 2 5 6, DataManager.get_self, OnDisk.path_exists,
      path_exists.
    rewrite E, Hr. reflexivity.
Qed.

Lemma init_on_first (refused : string -> bool) (self : nat)
    (o : DataManagerObj) (w : World) :
  heap w !! self = Some o -> _initialized o = false ->
  OnDisk.__init__ refused self w = after_init_on refused self w.
Proof.
  intros E Hinit. unfold OnDisk.__init__, after_init_on.
  erewrite bind_run by (apply get_self_run; exact E).
  rewrite Hinit.
  do 5 (erewrite bind_run;
        [|apply modify_self_run; cbn [heap set_heap];
          first [exact E | eapply lookup_after_insert, E]];
        cbn [heap set_heap]; rewrite ?list_insert_insert_eq).
  erewrite bind_run
    by (apply get_self_run; cbn [heap set_heap];
        eapply lookup_after_insert, E).
  cbn [DataManager.with_initialized DataManager.with_hist_data_path
       DataManager.with_data_path DataManager.with_historical_data
       DataManager.with_current_data _initialized current_data
       historical_data data_path hist_data_path].
  unfold mkdir_parent, next_io, bind at 1 2. cbn.
  destruct (io_fault w (io_pos w)); try reflexivity.
  unfold ret at 1. unfold bind.
  erewrite load_current_on
    by (cbn [heap set_heap set_io_pos]; eapply lookup_after_insert, E).
  cbn [data_path DataManager.with_initialized
       DataManager.with_hist_data_path DataManager.with_data_path].
  destruct (refused "data/robot_data.json"); [reflexivity|].
  erewrite load_historical_on
    by (apply after_load_current_lookup; cbn [heap set_heap set_io_pos];
        eapply lookup_after_insert, E).
  cbn [hist_data_path DataManager.with_current_data
       DataManager.with_initialized DataManager.with_hist_data_path].
  destruct (refused "data/hist_data.json"); reflexivity.
Qed.

(** On a disk that gives the status of every path this is the constructor
    of [DataManager]. *)
Lemma construct_on_searchable :
  OnDisk.construct searchable = DataManager.construct.
Proof. reflexivity. Qed.

(** The first [DataManager()] of a process, by what the disk lets
    through. *)
Lemma construct_on_first (refused : string -> bool) (w : World) :
  DataManager_instance w = None ->
  OnDisk.construct refused w
  = let self := length (heap w) in
    let w0 :=
      set_DataManager_instance (Some self)
        (set_heap (heap w ++ [DataManager.blank]) w) in
    match after_init_on refused self w0 with
    | (Ok _, w') => (Ok self, w')
    | (Raise e, w') => (Raise e, w')
    end.
Proof.
  intros Hnone. cbv zeta. unfold OnDisk.construct.
  erewrite bind_run by (apply new_run_first; exact Hnone).
  unfold bind.
  erewrite init_on_first;
    [| cbn [heap set_heap set_DataManager_instance];
       apply list_lookup_middle; reflexivity
     | reflexivity].
  destruct (after_init_on _ _ _) as [[[]|e] w']; reflexivity.
Qed.

(** The first construction raises exactly when the directory cannot be
    made or the status of one of the two files is refused. *)
Lemma construct_on_first_raises (refused : string -> bool) (w : World) :
  DataManager_instance w = None ->
  fst (OnDisk.construct refused w) = Raise OSError
  <-> (io_fault w (io_pos w) <> IoOk
       \/ refused "data/robot_data.json" = true
       \/ refused "data/hist_data.json" = true).
Proof.
  intros Hnone. rewrite (construct_on_first refused w Hnone). cbv zeta.
  unfold after_init_on.
  cbn [io_fault io_pos set_DataManager_instance set_heap].
  destruct (io_fault w (io_pos w));
    destruct (refused "data/robot_data.json");
    destruct (refused "data/hist_data.json"); cbn [fst];
    split; intros H; try reflexivity; try discriminate;
    try (left; discriminate); try (right; left; reflexivity);
    try (right; right; reflexivity).
  destruct H as [H|[H|H]]; [congruence | discriminate..].
Qed.




(** ** The singleton *)

Lemma construct_run_again (self : nat) (o : DataManagerObj) (w : World) :
  DataManager_instance w = Some self ->
  heap w !! self = Some o ->
  _initialized o = true ->
  DataManager.construct w = (Ok self, w).
Proof.
  intros Hinst E Hinit. unfold DataManager.construct.
  erewrite bind_run by (apply new_run_again; exact Hinst).
  erewrite bind_run by (eapply init_run_again; eassumption).
  reflexivity.
Qed.

(** Whether the directory could be made or not, the first construction
    leaves the instance registered and marked as initialized. *)
Lemma construct_first_registers (w : World) :
  DataManager_instance w = None ->
  exists o : DataManagerObj,
    DataManager_instance (snd (DataManager.construct w))
    = Some (length (heap w))
    /\ heap (snd (DataManager.construct w)) !! length (heap w) = Some o
    /\ _initialized o = true
    /\ (fst (DataManager.construct w) = Ok (length (heap w))
        \/ fst (DataManager.construct w) = Raise OSError).
Proof.
  intros Hnone.
  set (self := length (heap w)).
  set (w0 := set_DataManager_instance (Some self)
               (set_heap (heap w ++ [DataManager.blank]) w)).
  assert (E0 : heap w0 !! self = Some DataManager.blank)
    by (apply list_lookup_middle; reflexivity).
  assert (Hc : DataManager.construct w
               = match io_fault w (io_pos w) with
                 | IoOk => (Ok self, after_init self w0)
                 | _ =>
                     (Raise OSError,
                      set_io_pos (S (io_pos w0))
                        (set_heap (<[self := new_manager]> (heap w0)) w0))
                 end).
  { unfold DataManager.construct.
    erewrite bind_run by (apply new_run_first; exact Hnone).
    fold self. fold w0. unfold bind.
    rewrite (init_run_first self DataManager.blank w0 E0 eq_refl).
    change (io_fault w0 (io_pos w0)) with (io_fault w (io_pos w)).
    destruct (io_fault w (io_pos w)); reflexivity. }
  rewrite Hc. destruct (io_fault w (io_pos w)).
  - eexists. split; [reflexivity|]. split.
    { unfold after_init. apply after_load_historical_lookup.
      apply after_load_current_lookup. cbn [heap set_heap set_io_pos].
      eapply lookup_after_insert, E0. }
    split; [reflexivity | left; reflexivity].
  - exists new_manager. split; [reflexivity|]. split.
    { cbn [snd heap set_heap set_io_pos]. eapply lookup_after_insert, E0. }
    split; [reflexivity | right; reflexivity].
  - exists new_manager. split; [reflexivity|]. split.
    { cbn [snd heap set_heap set_io_pos]. eapply lookup_after_insert, E0. }
    split; [reflexivity | right; reflexivity].
Qed.

(** C10. After the first [DataManager()] of a process and any number of
    update cycles, another [DataManager()] returns the address the first
    one returned and leaves the whole world as it was: [__init__] returns
    early, so the current snapshot, the history and the two paths of the
    object are not reset. *)
Theorem construct_is_idempotent (w : World) (n : nat) :
  DataManager_instance w = None ->
  let self := length (heap w) in
  let w1 := snd (DataManager.construct w) in
  let w2 := snd (cycles self n w1) in
  (forall s : nat, fst (DataManager.construct w) = Ok s -> s = self)
  /\ DataManager.construct w2 = (Ok self, w2)
  /\ DataManager.__init__ self w2 = (Ok tt, w2).
Proof.
  intros Hnone self w1 w2.
  destruct (construct_first_registers w Hnone)
    as (o & Hinst & Hlook & Hinit & Hres).
  fold self in Hinst, Hlook, Hres. fold w1 in Hinst, Hlook.
  destruct (cycles_run self n w1 o Hlook)
    as (w' & o' & Hrun & Hlook' & _ & _ & Hinit' & _ & _ & Hinst').
  assert (Hw2 : w2 = w') by (unfold w2; rewrite Hrun; reflexivity).
  rewrite Hw2. split.
  - intros s Hs. destruct Hres as [Hok|Hraise]; congruence.
  - split.
    + eapply construct_run_again; [congruence | exact Hlook' | congruence].
    + eapply init_run_again; [exact Hlook' | congruence].
Qed.

Lemma construct_is_idempotent_witness :
  let w2 := snd (cycles 0 2 (snd (DataManager.construct empty_world))) in
  DataManager.construct w2 = (Ok 0%nat, w2)
  /\ length (heap w2) = 1%nat.
Proof.
  intros w2. split.
  - apply (construct_is_idempotent empty_world 2). reflexivity.
  - vm_compute. reflexivity.
Defined.

(** ** The update loop *)

Section Loop.

Context {D : Type} `{DataManagerLike D}.
Variable self : BackgroundTaskManager D.

Let cycle : M unit := update_data_of (data_manager self).

Hypothesis cycle_raises : raises_only_Exceptions cycle.
Hypothesis cycle_sync : synchronous cycle.

Lemma scheduled_pass_await_pos (w : World) :
  await_pos (scheduled_pass cycle w) = S (await_pos w).
Proof.
  unfold scheduled_pass. destruct (cycle_sync w) as (Ha & _ & _).
  destruct (cycle w) as [[[]|e] w1]; cbn in *; congruence.
Qed.

Lemma scheduled_pass_cancel_at (w : World) :
  cancel_at (scheduled_pass cycle w) = cancel_at w.
Proof.
  unfold scheduled_pass. destruct (cycle_sync w) as (_ & Hc & _).
  destruct (cycle w) as [[[]|e] w1]; cbn in *; congruence.
Qed.

Lemma scheduled_pass_slept (w : World) :
  slept (scheduled_pass cycle w) = slept w ++ [2].
Proof.
  unfold scheduled_pass. destruct (cycle_sync w) as (_ & _ & Hs).
  destruct (cycle w) as [[[]|e] w1]; cbn in *; congruence.
Qed.

(** A pass that is not cancelled at its wait follows the schedule,
    whether its cycle returned or raised. *)
Lemma loop_body_run (w : World) :
  cancel_at w (await_pos w) = false ->
  loop_body self w = (Ok tt, scheduled_pass cycle w).
Proof.
  intros Hgo. unfold loop_body, scheduled_pass, try_except, bind.
  fold cycle.
  destruct (cycle_sync w) as (Ha & Hc & _).
  pose proof (cycle_raises w) as Hexn.
  destruct (cycle w) as [[[]|e] w1]; cbn in *.
  - unfold asyncio_sleep. rewrite Hc, Ha, Hgo. reflexivity.
  - rewrite (Hexn e eq_refl). unfold print, asyncio_sleep. cbn.
    rewrite Hc, Ha, Hgo. reflexivity.
Qed.

(** A pass that is cancelled at its wait ends the loop. *)
Lemma loop_body_cancelled (w : World) :
  cancel_at w (await_pos w) = true ->
  fst (loop_body self w) = Raise CancelledError.
Proof.
  intros Hstop. unfold loop_body, try_except, bind. fold cycle.
  destruct (cycle_sync w) as (Ha & Hc & _).
  pose proof (cycle_raises w) as Hexn.
  destruct (cycle w) as [[[]|e] w1]; cbn in *.
  - unfold asyncio_sleep. rewrite Hc, Ha, Hstop. reflexivity.
  - rewrite (Hexn e eq_refl). unfold print, asyncio_sleep. cbn.
    rewrite Hc, Ha, Hstop. reflexivity.
Qed.

Lemma while_true_run (n : nat) :
  forall w : World,
    (forall i : nat, (i < n)%nat -> cancel_at w (i + await_pos w) = false) ->
    while_true self n w = (Ok tt, Nat.iter n (scheduled_pass cycle) w).
Proof.
  induction n as [|n IH]; intros w Hgo; [reflexivity|].
  cbn [while_true].
  erewrite bind_run by (apply loop_body_run, (Hgo 0%nat); lia).
  rewrite IH.
  - rewrite Nat.iter_swap. reflexivity.
  - intros i Hi.
    rewrite scheduled_pass_cancel_at, scheduled_pass_await_pos.
    replace (i + S (await_pos w))%nat with (S i + await_pos w)%nat by lia.
    apply Hgo. lia.
Qed.

Lemma passes_await_pos (n : nat) (w : World) :
  await_pos (Nat.iter n (scheduled_pass cycle) w) = (n + await_pos w)%nat.
Proof.
  induction n as [|n IH]; [reflexivity|].
  rewrite Nat.iter_succ, scheduled_pass_await_pos, IH.
  reflexivity.
Qed.


Lemma passes_slept (n : nat) (w : World) :
  slept (Nat.iter n (scheduled_pass cycle) w) = slept w ++ repeat 2 n.
Proof.
  induction n as [|n IH].
  - cbn. rewrite app_nil_r. reflexivity.
  - rewrite Nat.iter_succ, scheduled_pass_slept, IH.
    rewrite <- app_assoc. f_equal.
    change [2] with (repeat 2 1). rewrite <- repeat_app.
    f_equal. lia.
Qed.

Lemma while_true_cancelled (n k : nat) (w : World) :
  (forall i : nat, (i < n)%nat -> cancel_at w (i + await_pos w) = false) ->
  cancel_at w (n + await_pos w) = true ->
  fst (while_true self (S n + k) w) = Raise CancelledError.
Proof.
  revert w. induction n as [|n IH]; intros w Hgo Hstop.
  - cbn [while_true Nat.add]. unfold bind.
    pose proof (loop_body_cancelled w Hstop) as Hc.
    destruct (loop_body self w) as [[[]|e] w1]; cbn in *; congruence.
  - change (S (S n) + k)%nat with (S (S n + k)).
    cbn [while_true].
    erewrite bind_run by (apply loop_body_run, (Hgo 0%nat); lia).
    apply IH.
    + intros i Hi.
      rewrite scheduled_pass_cancel_at, scheduled_pass_await_pos.
      replace (i + S (await_pos w))%nat with (S i + await_pos w)%nat
        by lia.
      apply Hgo. lia.
    + rewrite scheduled_pass_cancel_at, scheduled_pass_await_pos.
      replace (n + S (await_pos w))%nat with (S n + await_pos w)%nat
        by lia.
      exact Hstop.
Qed.

End Loop.

(** The real cycle awaits nothing and raises nothing but [Exception]s. *)
Lemma update_data_on_dangling (self : nat) (w : World) :
  heap w !! self = None ->
  DataManager.update_data self w
  = (Raise AttributeError,
     set_clock_pos (1 + clock_pos w)%nat
       (set_random_pos (13 + random_pos w)%nat w)).
Proof.
  intros E. unfold DataManager.update_data.
  rewrite (bind_run _ _ _ _ _ (simulate_hardware_data_run w)).
  unfold bind, DataManager.modify_self. cbn [heap set_clock_pos
    set_random_pos]. rewrite E. reflexivity.
Qed.

Lemma update_data_synchronous (self : nat) :
  synchronous (DataManager.update_data self).
Proof.
  intros w. destruct (heap w !! self) as [o|] eqn:E.
  - rewrite (update_data_run _ _ _ E). cbn [snd].
    rewrite after_update_await_pos, after_update_cancel_at,
      after_update_slept.
    repeat split.
  - rewrite (update_data_on_dangling _ _ E). repeat split.
Qed.

Lemma update_data_raises_only_Exceptions (self : nat) :
  raises_only_Exceptions (DataManager.update_data self).
Proof.
  intros w e. destruct (heap w !! self) as [o|] eqn:E.
  - rewrite (update_data_run _ _ _ E). discriminate.
  - rewrite (update_data_on_dangling _ _ E). cbn. intros [= <-].
    reflexivity.
Qed.

(** C7. Once started, the loop runs the cycle at once and then keeps the
    schedule cycle, wait 2, cycle, wait 2, ... for as many passes as one
    cares to follow, as long as no cancellation arrives: after any [n]
    passes it is still running, has made exactly [n] waits of 2 and is
    where [n] turns of the schedule lead.  A pass whose cycle raises
    prints the error, makes the same wait of 2 and is followed by the
    next pass like any other.  A cancellation, which arrives at a wait,
    is what ends the loop. *)
Theorem update_loop_keeps_schedule {D : Type} `{DataManagerLike D}
    (self : BackgroundTaskManager D) (n : nat) (w : World) :
  let cycle := update_data_of (data_manager self) in
  raises_only_Exceptions cycle ->
  synchronous cycle ->
  (forall i : nat, (i < n)%nat -> cancel_at w (i + await_pos w) = false) ->
  let started := start self in
  let w0 := set_stdout (stdout w ++ [INFO_loop_starting]) w in
  let w' := Nat.iter n (scheduled_pass cycle) w0 in
  task started = Some TaskScheduled
  /\ data_update_loop started n w = (Ok tt, w')
  /\ (forall m : nat,
        n = S m ->
        w' = Nat.iter m (scheduled_pass cycle) (scheduled_pass cycle w0))
  /\ slept w' = slept w ++ repeat 2 n
  /\ await_pos w' = (n + await_pos w)%nat
  /\ (forall (w1 w2 : World) (e : exn),
        cancel_at w1 (await_pos w1) = false ->
        cycle w1 = (Raise e, w2) ->
        loop_body started w1
        = (Ok tt,
           set_slept (slept w2 ++ [2])
             (set_await_pos (S (await_pos w2))
                (set_stdout (stdout w2 ++ [ERRO_loop e]) w2))))
  /\ (forall k : nat,
        cancel_at w (n + await_pos w) = true ->
        fst (data_update_loop started (S n + k) w) = Raise CancelledError).
Proof.
  intros cycle Hexn Hsync Hgo started w0 w'.
  split; [reflexivity|].
  split.
  { unfold data_update_loop. unfold bind at 1. cbn [print].
    fold w0. apply (@while_true_run D H started Hexn Hsync n w0). exact Hgo. }
  split.
  { intros m ->. unfold w'. rewrite Nat.iter_swap. reflexivity. }
  split; [apply (@passes_slept D H self Hsync n w0)|].
  split; [apply (@passes_await_pos D H self Hsync n w0)|].
  split.
  { intros w1 w2 e Hgo1 Hcycle.
    rewrite (@loop_body_run D H started Hexn Hsync w1 Hgo1).
    unfold scheduled_pass.
    change (update_data_of (data_manager started)) with cycle.
    rewrite Hcycle. reflexivity. }
  intros k Hstop. unfold data_update_loop. unfold bind at 1. cbn [print].
  fold w0. apply (@while_true_cancelled D H started Hexn Hsync n k w0).
  - exact Hgo.
  - exact Hstop.
Qed.

Lemma manager_ref_synchronous (d : DataManagerRef) :
  synchronous (update_data_of d).
Proof. apply update_data_synchronous. Qed.

Lemma manager_ref_raises_only_Exceptions (d : DataManagerRef) :
  raises_only_Exceptions (update_data_of d).
Proof. apply update_data_raises_only_Exceptions. Qed.

Lemma failing_manager_synchronous (d : FailingManager) :
  synchronous (update_data_of d).
Proof. intros w. repeat split. Qed.

Lemma failing_manager_raises_only_Exceptions (d : FailingManager) :
  raises_only_Exceptions (update_data_of d).
Proof. intros w e [= <-]. reflexivity. Qed.

Lemma update_loop_keeps_schedule_witness :
  (let self := BackgroundTaskManager_init {| address := 0 |} in
   exists w' : World,
     data_update_loop (start self) 2 booted_world = (Ok tt, w')
     /\ slept w' = [2; 2]
     /\ await_pos w' = 2%nat
     /\ (historical_data <$> heap w' !! 0%nat)
        = Some (map (Reading.record_of_cycle booted_world) (seq 0 2)))
  /\ (let self := BackgroundTaskManager_init failing_manager in
      exists w' : World,
        data_update_loop (start self) 2 booted_world = (Ok tt, w')
        /\ slept w' = [2; 2]
        /\ stdout w'
           = stdout booted_world
             ++ [INFO_loop_starting; ERRO_loop OSError; ERRO_loop OSError]).
Proof.
  split; intros self.
  - pose proof (update_loop_keeps_schedule self 2 booted_world
                  (manager_ref_raises_only_Exceptions _)
                  (manager_ref_synchronous _)) as Hthm.
    destruct Hthm as (_ & Hrun & _ & Hslept & Hawait & _).
    { intros i Hi. vm_compute. reflexivity. }
    eexists.
    split; [exact Hrun|]. split; [exact Hslept|]. split; [exact Hawait|].
    vm_compute. reflexivity.
  - pose proof (update_loop_keeps_schedule self 2 booted_world
                  (failing_manager_raises_only_Exceptions _)
                  (failing_manager_synchronous _)) as Hthm.
    destruct Hthm as (_ & Hrun & _ & Hslept & _).
    { intros i Hi. vm_compute. reflexivity. }
    eexists.
    split; [exact Hrun|]. split; [exact Hslept|].
    vm_compute. reflexivity.
Defined.

(** ** Doubles: order, exact values, rounding *)

Module PyFloatFacts.

Import PyFloat.

Lemma scale_pos : 0 < scale.
Proof. unfold scale. apply Z.pow_pos_nonneg; lia. Qed.

Lemma digits2_pos_bounds (m : positive) :
  2 ^ (Zpos (digits2_pos m) - 1) <= Zpos m < 2 ^ Zpos (digits2_pos m).
Proof.
  induction m as [m IH|m IH|]; cbn [digits2_pos].
  - rewrite Pos2Z.inj_succ.
    replace (Z.succ (Zpos (digits2_pos m)) - 1) with (Z.succ (Zpos (digits2_pos m) - 1)) by lia.
    rewrite !Z.pow_succ_r by lia. lia.
  - rewrite Pos2Z.inj_succ.
    replace (Z.succ (Zpos (digits2_pos m)) - 1) with (Z.succ (Zpos (digits2_pos m) - 1)) by lia.
    rewrite !Z.pow_succ_r by lia. lia.
  - cbn. lia.
Qed.

(** What validity says of a finite double. *)
Lemma valid_finite (s : bool) (m : positive) (e : Z) :
  valid (S754_finite s m e) = true ->
  -1074 <= e /\ Zpos m < 2 ^ 53 /\ (-1074 < e -> 2 ^ 52 <= Zpos m).
Proof.
  unfold valid, valid_binary, bounded, canonical_mantissa, fexp, emin, prec, emax.
  intros Hv. apply andb_prop in Hv as [Hc _]. apply Z.eqb_eq in Hc.
  pose proof (digits2_pos_bounds m) as [Hlo Hhi].
  set (d := Zpos (digits2_pos m)) in *.
  assert (Hd : 0 < d) by (unfold d; lia).
  split; [lia|]. split.
  - eapply Z.lt_le_trans; [exact Hhi|]. apply Z.pow_le_mono_r; lia.
  - intros He. assert (d = 53) as Hd53 by lia. rewrite Hd53 in Hlo. exact Hlo.
Qed.

Lemma pow2_pos (e : Z) : 0 <= e -> 0 < 2 ^ e.
Proof. intros. apply Z.pow_pos_nonneg; lia. Qed.

(** Of two valid doubles, the one with the smaller exponent has the
    smaller magnitude. *)
Lemma magnitude_lt (s1 s2 : bool) (m1 m2 : positive) (e1 e2 : Z) :
  valid (S754_finite s1 m1 e1) = true ->
  valid (S754_finite s2 m2 e2) = true ->
  e1 < e2 ->
  Zpos m1 * 2 ^ (e1 + 1074) < Zpos m2 * 2 ^ (e2 + 1074).
Proof.
  intros V1 V2 Hlt.
  apply valid_finite in V1 as (He1 & Hm1 & _).
  apply valid_finite in V2 as (He2 & _ & Hm2).
  specialize (Hm2 ltac:(lia)).
  pose proof (pow2_pos (e1 + 1074) ltac:(lia)) as Hp1.
  replace (e2 + 1074) with ((e2 - e1 - 1) + 1 + (e1 + 1074)) by lia.
  rewrite (Z.pow_add_r 2 (e2 - e1 - 1 + 1) (e1 + 1074)) by lia.
  rewrite (Z.pow_add_r 2 (e2 - e1 - 1) 1) by lia.
  pose proof (pow2_pos (e2 - e1 - 1) ltac:(lia)) as Hp2.
  change (2 ^ 1) with 2. change (2 ^ 53) with (2 * 2 ^ 52) in Hm1.
  set (P := 2 ^ (e1 + 1074)) in *. set (R := 2 ^ (e2 - e1 - 1)) in *.
  set (T := 2 ^ 52) in *. assert (0 < T) by (unfold T; lia).
  clearbody P R T.
  assert (H1 : Zpos m1 * P < 2 * T * P) by nia.
  assert (H2 : 2 * T * P <= 2 * Zpos m2 * P) by nia.
  assert (H3 : 2 * Zpos m2 * P <= Zpos m2 * (R * 2 * P)).
  { assert (0 <= Zpos m2 * P) by nia. nia. }
  lia.
Qed.

Lemma leb_finite_scaled (x y : float) :
  valid x = true -> valid y = true ->
  (exists s m e, x = S754_finite s m e) ->
  (exists s m e, y = S754_finite s m e) ->
  leb x y = true -> scaled x <= scaled y.
Proof.
  intros Vx Vy (s1 & m1 & e1 & ->) (s2 & m2 & e2 & ->).
  unfold leb, SFleb, SFcompare, scaled.
  pose proof (valid_finite _ _ _ Vx) as (He1 & _ & _).
  pose proof (valid_finite _ _ _ Vy) as (He2 & _ & _).
  pose proof (pow2_pos (e1 + 1074) ltac:(lia)) as Hp1.
  pose proof (pow2_pos (e2 + 1074) ltac:(lia)) as Hp2.
  destruct s1, s2; cbn [cond_Zopp]; try discriminate.
  - destruct (Z.compare_spec e1 e2) as [Heq|Hlt|Hgt]; cbn; try discriminate.
    + subst e2. rewrite Pos.compare_cont_spec. cbn [Pos.switch_Eq].
      destruct (Pos.compare_spec m1 m2); cbn; try discriminate; intros _; nia.
    + intros _. pose proof (magnitude_lt _ _ _ _ _ _ Vy Vx Hgt). lia.
  - intros _. nia.
  - destruct (Z.compare_spec e1 e2) as [Heq|Hlt|Hgt]; cbn; try discriminate.
    + subst e2. rewrite Pos.compare_cont_spec. cbn [Pos.switch_Eq].
      destruct (Pos.compare_spec m1 m2); cbn; try discriminate; intros _; nia.
    + intros _. pose proof (magnitude_lt _ _ _ _ _ _ Vx Vy Hlt). lia.
Qed.

(** A value between two finite doubles is a zero or finite, and its exact
    value lies between theirs. *)
Lemma between_scaled (lo hi u : float) :
  valid lo = true -> valid hi = true -> valid u = true ->
  (exists s m e, lo = S754_finite s m e) ->
  (exists s m e, hi = S754_finite s m e) ->
  leb lo u = true -> leb u hi = true ->
  scaled lo <= scaled u <= scaled hi
  /\ ((exists s, u = S754_zero s) \/ (exists s m e, u = S754_finite s m e)).
Proof.
  intros Vlo Vhi Vu Flo Fhi Hlo Hhi.
  destruct u as [s|s| |s m e].
  - split; [|left; eauto].
    destruct Flo as (s1 & m1 & e1 & ->), Fhi as (s2 & m2 & e2 & ->).
    pose proof (valid_finite _ _ _ Vlo) as (He1 & _ & _).
    pose proof (valid_finite _ _ _ Vhi) as (He2 & _ & _).
    pose proof (pow2_pos (e1 + 1074) ltac:(lia)) as Hp1.
    pose proof (pow2_pos (e2 + 1074) ltac:(lia)) as Hp2.
    unfold leb, SFleb, SFcompare in Hlo, Hhi. cbn [scaled].
    destruct s1, s2; cbn in *; try discriminate; nia.
  - exfalso.
    destruct Flo as (s1 & m1 & e1 & ->), Fhi as (s2 & m2 & e2 & ->).
    unfold leb, SFleb, SFcompare in Hlo, Hhi.
    destruct s; cbn in *; discriminate.
  - exfalso. destruct Flo as (s1 & m1 & e1 & ->). discriminate.
  - split; [|right; eauto].
    split; apply leb_finite_scaled; eauto.
Qed.

(** *** Rounding to decimals *)

Lemma round_half_even_div_le (n d c : Z) :
  0 < d -> n <= c * d -> round_half_even_div n d <= c.
Proof.
  intros Hd Hn. unfold round_half_even_div.
  pose proof (Z.div_mod n d ltac:(lia)) as Hdm.
  pose proof (Z.mod_pos_bound n d Hd) as Hr.
  set (q := n / d) in *. set (r := n mod d) in *. clearbody q r.
  assert (Hq : q <= c) by nia.
  destruct (Z.compare_spec (2 * r) d) as [He|Hl|Hg].
  - destruct (Z.even q); [lia|]. assert (q <> c) by nia. lia.
  - lia.
  - assert (q <> c) by nia. lia.
Qed.

Lemma round_half_even_div_ge (n d c : Z) :
  0 < d -> c * d <= n -> c <= round_half_even_div n d.
Proof.
  intros Hd Hn. unfold round_half_even_div.
  pose proof (Z.div_mod n d ltac:(lia)) as Hdm.
  pose proof (Z.mod_pos_bound n d Hd) as Hr.
  set (q := n / d) in *. set (r := n mod d) in *. clearbody q r.
  assert (Hq : c <= q) by nia.
  destruct (Z.compare_spec (2 * r) d) as [He|Hl|Hg].
  - destruct (Z.even q); lia.
  - lia.
  - lia.
Qed.

(** The digits of a valid double with a negative exponent, against an
    integer bound on its magnitude. *)
Lemma digits_le (m : positive) (e A : Z) (nd : nat) :
  -1074 <= e < 0 ->
  Zpos m * 2 ^ (e + 1074) <= A * scale ->
  round_half_even_div (Zpos m * 10 ^ Z.of_nat nd) (2 ^ (- e))
  <= A * 10 ^ Z.of_nat nd.
Proof.
  intros He Hle.
  pose proof (pow2_pos (- e) ltac:(lia)) as HP.
  pose proof (pow2_pos (e + 1074) ltac:(lia)) as HQ.
  assert (HT : 0 < 10 ^ Z.of_nat nd) by (apply Z.pow_pos_nonneg; lia).
  assert (Hs : scale = 2 ^ (- e) * 2 ^ (e + 1074)).
  { unfold scale. rewrite <- Z.pow_add_r by lia. f_equal. lia. }
  rewrite Hs in Hle.
  set (P := 2 ^ (- e)) in *. set (Q := 2 ^ (e + 1074)) in *.
  set (T := 10 ^ Z.of_nat nd) in *. clearbody P Q T.
  apply round_half_even_div_le; [exact HP|].
  assert (Zpos m <= A * P) by nia. nia.
Qed.

Lemma digits_ge (m : positive) (e A : Z) (nd : nat) :
  -1074 <= e < 0 ->
  A * scale <= Zpos m * 2 ^ (e + 1074) ->
  A * 10 ^ Z.of_nat nd
  <= round_half_even_div (Zpos m * 10 ^ Z.of_nat nd) (2 ^ (- e)).
Proof.
  intros He Hle.
  pose proof (pow2_pos (- e) ltac:(lia)) as HP.
  pose proof (pow2_pos (e + 1074) ltac:(lia)) as HQ.
  assert (HT : 0 < 10 ^ Z.of_nat nd) by (apply Z.pow_pos_nonneg; lia).
  assert (Hs : scale = 2 ^ (- e) * 2 ^ (e + 1074)).
  { unfold scale. rewrite <- Z.pow_add_r by lia. f_equal. lia. }
  rewrite Hs in Hle.
  set (P := 2 ^ (- e)) in *. set (Q := 2 ^ (e + 1074)) in *.
  set (T := 10 ^ Z.of_nat nd) in *. clearbody P Q T.
  apply round_half_even_div_ge; [exact HP|].
  assert (A * P <= Zpos m) by nia. nia.
Qed.

(** A valid double of magnitude below [2^52] has a negative exponent. *)
Lemma small_negative_exponent (s : bool) (m : positive) (e A : Z) :
  valid (S754_finite s m e) = true ->
  A < 2 ^ 52 ->
  Zpos m * 2 ^ (e + 1074) <= A * scale ->
  e < 0.
Proof.
  intros V HA Hle.
  apply valid_finite in V as (He & _ & Hm).
  destruct (Z.ltb_spec e 0) as [|Hge]; [assumption|exfalso].
  specialize (Hm ltac:(lia)).
  assert (Hs : 2 ^ (e + 1074) = 2 ^ e * scale).
  { unfold scale. rewrite <- Z.pow_add_r by lia. reflexivity. }
  rewrite Hs in Hle.
  pose proof scale_pos as Hsc.
  assert (He2 : 1 <= 2 ^ e).
  { pose proof (pow2_pos e ltac:(lia)). lia. }
  set (E := 2 ^ e) in *. set (T := 2 ^ 52) in *. clearbody E T.
  generalize dependent scale. intros S0 Hle Hsc.
  assert (T * S0 <= Zpos m * (E * S0)).
  { assert (T * S0 <= Zpos m * S0) by nia.
    assert (Zpos m * S0 <= Zpos m * (E * S0)) by nia. lia. }
  nia.
Qed.

(** Rounding a valid value whose exact value lies between two integers
    gives a decimal between the same integers. *)
Lemma round_between (lo hi : Z) (nd : nat) (u : float) :
  valid u = true ->
  - 2 ^ 52 < lo -> hi < 2 ^ 52 ->
  lo * scale <= scaled u <= hi * scale ->
  (exists s, u = S754_zero s) \/ (exists s m e, u = S754_finite s m e) ->
  exists (s : bool) (k : Z),
    round u nd = of_decimal s k nd
    /\ 0 <= k
    /\ lo * 10 ^ Z.of_nat nd <= cond_Zopp s k <= hi * 10 ^ Z.of_nat nd.
Proof.
  intros V Hlo Hhi [Hl Hh] [[s ->]|(s & m & e & ->)].
  - exists s, 0. cbn in *. pose proof scale_pos.
    assert (HT : 0 < 10 ^ Z.of_nat nd) by (apply Z.pow_pos_nonneg; lia).
    split; [reflexivity|]. split; [lia|]. destruct s; cbn; nia.
  - pose proof (valid_finite _ _ _ V) as (He & _ & _).
    pose proof (pow2_pos (e + 1074) ltac:(lia)) as HQ.
    pose proof scale_pos as Hsc.
    assert (HT : 0 < 10 ^ Z.of_nat nd) by (apply Z.pow_pos_nonneg; lia).
    cbn [scaled] in Hl, Hh.
    assert (Hneg : e < 0).
    { destruct s; cbn [cond_Zopp] in Hl, Hh.
      - apply (small_negative_exponent true m e (- lo) V); lia.
      - apply (small_negative_exponent false m e hi V); lia. }
    unfold round. destruct (Z.leb_spec 0 e) as [|_]; [lia|].
    eexists s, _. split; [reflexivity|].
    pose proof (pow2_pos (- e) ltac:(lia)) as HP.
    split.
    { apply (round_half_even_div_ge _ _ 0); [exact HP|]. lia. }
    destruct s; cbn [cond_Zopp] in *.
    + pose proof (digits_le m e (- lo) nd ltac:(lia) ltac:(lia)).
      pose proof (digits_ge m e (- hi) nd ltac:(lia) ltac:(lia)).
      lia.
    + pose proof (digits_le m e hi nd ltac:(lia) ltac:(lia)).
      pose proof (digits_ge m e lo nd ltac:(lia) ltac:(lia)).
      lia.
Qed.

Lemma decimals_ok_sound (lo hi : Z) (nd : nat) (s : bool) (k : Z) :
  decimals_ok lo hi nd = true ->
  0 <= k ->
  lo * 10 ^ Z.of_nat nd <= cond_Zopp s k <= hi * 10 ^ Z.of_nat nd ->
  within lo hi (of_decimal s k nd) = true.
Proof.
  intros Hok Hk Hr. unfold decimals_ok in Hok.
  rewrite forallb_forall in Hok.
  assert (HT : 0 < 10 ^ Z.of_nat nd) by (apply Z.pow_pos_nonneg; lia).
  specialize (Hok (Z.to_nat k)).
  rewrite Z2Nat.id in Hok by exact Hk.
  assert (Hin : In (Z.to_nat k)
                  (seq 0 (S (Z.to_nat (Z.max (Z.abs lo) (Z.abs hi)
                                       * 10 ^ Z.of_nat nd))))).
  { apply in_seq. split; [lia|]. cbn [Nat.add].
    apply Nat.lt_succ_r, Z2Nat.inj_le; [lia | nia |].
    destruct s; cbn [cond_Zopp] in Hr; nia. }
  specialize (Hok Hin). apply andb_prop in Hok as [Hpos Hneg].
  assert (Hd : decimal_ok lo hi nd s k = true) by (destruct s; assumption).
  unfold decimal_ok in Hd.
  destruct (Z.leb_spec (lo * 10 ^ Z.of_nat nd) (cond_Zopp s k)); [|lia].
  destruct (Z.leb_spec (cond_Zopp s k) (hi * 10 ^ Z.of_nat nd)); [|lia].
  exact Hd.
Qed.

(** A value drawn between the two bounds of a checked range and rounded
    lies between them still, and is the double of a decimal with [nd]
    digits after the point. *)
Lemma round_within (lo hi : Z) (nd : nat) (u : float) :
  range_checked lo hi nd = true ->
  valid u = true ->
  leb (of_Z lo) u = true ->
  leb u (of_Z hi) = true ->
  within lo hi (round u nd) = true
  /\ exists (s : bool) (k : Z),
       round u nd = of_decimal s k nd
       /\ 0 <= k
       /\ lo * 10 ^ Z.of_nat nd <= cond_Zopp s k <= hi * 10 ^ Z.of_nat nd.
Proof.
  unfold range_checked. intros Hc V Hlo Hhi.
  repeat (apply andb_prop in Hc as [Hc ?]).
  match goal with H : decimals_ok _ _ _ = true |- _ => rename H into Hdec end.
  assert (Hfin : (exists s m e, of_Z lo = S754_finite s m e)
                 /\ (exists s m e, of_Z hi = S754_finite s m e)).
  { destruct (of_Z lo), (of_Z hi); try discriminate; split; eauto. }
  destruct Hfin as [Flo Fhi].
  destruct (between_scaled (of_Z lo) (of_Z hi) u) as [Hb Hshape]; auto.
  assert (Hb' : lo * scale <= scaled u <= hi * scale) by lia.
  destruct (round_between lo hi nd u V ltac:(lia) ltac:(lia) Hb' Hshape)
    as (s & k & Hround & Hk & Hr).
  split.
  - rewrite Hround. apply decimals_ok_sound; assumption.
  - exists s, k. auto.
Qed.

Lemma checked_130_160 : range_checked 130 160 1 = true.
Proof. vm_compute. reflexivity. Qed.

Lemma checked_10_30 : range_checked 10 30 1 = true.
Proof. vm_compute. reflexivity. Qed.

Lemma checked_65_80 : range_checked 65 80 1 = true.
Proof. vm_compute. reflexivity. Qed.

Lemma checked_m1_1 : range_checked (-1) 1 2 = true.
Proof. vm_compute. reflexivity. Qed.

End PyFloatFacts.

(** ** The simulator *)

Lemma leb_refl_of_leb (a b : float) :
  PyFloat.leb a b = true -> PyFloat.leb a a = true.
Proof.
  unfold PyFloat.leb, SFleb, SFcompare.
  destruct a as [s|s| |s m e]; try discriminate; intros _.
  - reflexivity.
  - destruct s; reflexivity.
  - rewrite Z.compare_refl, Pos.compare_cont_refl.
    destruct s; reflexivity.
Qed.

Lemma low_random_contract : random_contract low_random.
Proof.
  split.
  - intros n a b Va Vb Hab. cbn. split; [exact Va|].
    split; [eapply leb_refl_of_leb, Hab | exact Hab].
  - intros n a b Hab. cbn. lia.
Qed.

(** One rounded draw, from the contract of the random source. *)
Lemma rounded_draw (r : RandomSource) (n : nat) (lo hi : Z) (nd : nat) :
  random_contract r ->
  PyFloat.range_checked lo hi nd = true ->
  PyFloat.leb (PyFloat.of_Z lo) (PyFloat.of_Z hi) = true ->
  rounded_within lo hi nd
    (PyFloat.round (uniform_at r n (PyFloat.of_Z lo) (PyFloat.of_Z hi)) nd).
Proof.
  intros [Hu _] Hc Hle.
  assert (Hv : PyFloat.valid (PyFloat.of_Z lo) = true
               /\ PyFloat.valid (PyFloat.of_Z hi) = true).
  { unfold PyFloat.range_checked in Hc.
    rewrite !andb_true_iff in Hc. tauto. }
  destruct Hv as [Vlo Vhi].
  destruct (Hu n _ _ Vlo Vhi Hle) as (Vu & Hlo & Hhi).
  destruct (PyFloatFacts.round_within lo hi nd _ Hc Vu Hlo Hhi)
    as [Hin (s & k & Hr & Hk & _)].
  apply andb_prop in Hin as [H1 H2].
  split; [exact H1|]. split; [exact H2|]. exists s, k. auto.
Qed.

(** C3. Given a random source that keeps the documented contract of
    [uniform] and [randint], every reading of the simulator has exactly
    three motors, with ids 1, 2, 3 in that order; each motor has its
    velocity in [[130.0, 160.0]], its [cm] in [[10.0, 30.0]] and its
    temperature in [[65.0, 80.0]], each the double of a decimal with one
    digit after the point; the pallet id is an integer from 1 to 100; and
    each orientation component is in [[-1.0, 1.0]] and the double of a
    decimal with two digits after the point. *)
Theorem simulated_reading_in_ranges (w : World) :
  random_contract (random w) ->
  exists (raw : RawHardwareData) (w' : World),
    DataSimulator.simulate_hardware_data w = (Ok raw, w')
    /\ length (raw_motors raw) = 3%nat
    /\ map raw_id (raw_motors raw) = [1; 2; 3]
    /\ (forall m : RawMotorData,
          In m (raw_motors raw) ->
          rounded_within 130 160 1 (raw_velocity m)
          /\ rounded_within 10 30 1 (cm m)
          /\ rounded_within 65 80 1 (raw_temperature m))
    /\ 1 <= id_pallet (raw_pallet raw) <= 100
    /\ rounded_within (-1) 1 2 (centroid_x (raw_centroid raw))
    /\ rounded_within (-1) 1 2 (centroid_y (raw_centroid raw))
    /\ rounded_within (-1) 1 2 (centroid_z (raw_centroid raw)).
Proof.
  intros Hr. eexists. eexists.
  split; [apply simulate_hardware_data_run|].
  split; [reflexivity|]. split; [reflexivity|].
  assert (Hmotor : forall (p : nat) (i : Z),
            rounded_within 130 160 1
              (raw_velocity (Reading.motor_at (random w) p i))
            /\ rounded_within 10 30 1 (cm (Reading.motor_at (random w) p i))
            /\ rounded_within 65 80 1
                 (raw_temperature (Reading.motor_at (random w) p i))).
  { intros p i. cbn [Reading.motor_at raw_velocity cm raw_temperature].
    split; [|split].
    - apply rounded_draw;
        [exact Hr | exact PyFloatFacts.checked_130_160 | reflexivity].
    - apply rounded_draw;
        [exact Hr | exact PyFloatFacts.checked_10_30 | reflexivity].
    - apply rounded_draw;
        [exact Hr | exact PyFloatFacts.checked_65_80 | reflexivity]. }
  split.
  { intros m [<-|[<-|[<-|[]]]]; apply Hmotor. }
  split.
  { destruct Hr as [_ Hi]. apply Hi. lia. }
  cbn [raw_centroid Reading.raw_at centroid_x centroid_y centroid_z].
  unfold Reading.axis_at.
  repeat split;
    apply rounded_draw;
    first [exact Hr | exact PyFloatFacts.checked_m1_1 | reflexivity].
Qed.

Lemma simulated_reading_in_ranges_witness :
  exists (raw : RawHardwareData) (w' : World),
    DataSimulator.simulate_hardware_data empty_world = (Ok raw, w')
    /\ map raw_id (raw_motors raw) = [1; 2; 3]
    /\ map raw_velocity (raw_motors raw)
       = [PyFloat.of_Z 130; PyFloat.of_Z 130; PyFloat.of_Z 130]
    /\ (forall m : RawMotorData,
          In m (raw_motors raw) -> rounded_within 130 160 1 (raw_velocity m))
    /\ id_pallet (raw_pallet raw) = 1.
Proof.
  destruct (simulated_reading_in_ranges empty_world low_random_contract)
    as (raw & w' & Hrun & _ & Hids & Hm & _).
  exists raw, w'. split; [exact Hrun|]. split; [exact Hids|].
  split.
  { rewrite simulate_hardware_data_run in Hrun. injection Hrun as <- _.
    vm_compute. reflexivity. }
  split.
  { intros m Hin. apply (Hm m Hin). }
  rewrite simulate_hardware_data_run in Hrun. injection Hrun as <- _.
  reflexivity.
Defined.

(* ====================================================================== *)
(** * Further properties *)
(* ====================================================================== *)

(** ** The transformation loses nothing *)

Lemma process_motors_inj (l1 l2 : list RawMotorData) :
  map DataProcessor.process_motor l1 = map DataProcessor.process_motor l2 ->
  l1 = l2.
Proof.
  revert l2. induction l1 as [|m1 l1 IH]; intros [|m2 l2]; cbn;
    try discriminate; [reflexivity|].
  intros Heq. injection Heq as H1 H2 H3 H4 Hl.
  f_equal; [destruct m1, m2; cbn in *; congruence | apply IH, Hl].
Qed.

(** X1. [process_hardware_data] is one-to-one: two raw readings with the
    same snapshot are the same reading, so the raw reading can be read
    back from the snapshot. *)
Theorem process_hardware_data_injective (r1 r2 : RawHardwareData) :
  DataProcessor.process_hardware_data r1
  = DataProcessor.process_hardware_data r2 ->
  r1 = r2.
Proof.
  destruct r1 as [ms1 [i1 t1] [x1 y1 z1]], r2 as [ms2 [i2 t2] [x2 y2 z2]].
  unfold DataProcessor.process_hardware_data. cbn.
  intros [= Hm -> -> -> -> ->].
  apply process_motors_inj in Hm. subst. reflexivity.
Qed.

Lemma process_hardware_data_injective_witness :
  Reading.raw_at low_random ticking_clock 0 0
  = Reading.raw_at low_random ticking_clock 13 0.
Proof.
  apply process_hardware_data_injective. vm_compute. reflexivity.
Defined.

(** ** Requests and sequences of calls *)

Lemma get_current_data_run (self : nat) (o : DataManagerObj) (w : World) :
  heap w !! self = Some o ->
  DataManager.get_current_data self w = (Ok (current_data o), w).
Proof.
  intros E. unfold DataManager.get_current_data.
  erewrite bind_run by (apply get_self_run; exact E). reflexivity.
Qed.

(** What a request for the current data does, by whether there is a
    snapshot. *)
Lemma get_robot_data_run (data_manager : nat) (o : DataManagerObj)
    (w : World) :
  heap w !! data_manager = Some o ->
  get_robot_data data_manager w
  = match current_data o with
    | Some d => (Ok (Some d), w)
    | None =>
        (Ok (Some (Reading.snapshot_of_cycle w 0)),
         after_update data_manager o w)
    end.
Proof.
  intros E. unfold get_robot_data.
  erewrite bind_run by (apply get_current_data_run; exact E).
  destruct (current_data o) as [d|]; [reflexivity|].
  erewrite bind_run by (apply update_data_run; exact E).
  erewrite bind_run
    by (apply get_current_data_run, after_update_lookup; exact E).
  reflexivity.
Qed.

Lemma requests_present (data_manager n : nat) (o : DataManagerObj)
    (d : ProcessedRobotData) (w : World) :
  heap w !! data_manager = Some o ->
  current_data o = Some d ->
  requests data_manager n w = (Ok (repeat (Some d) n), w).
Proof.
  intros E Hd. induction n as [|n IH]; [reflexivity|].
  cbn [requests].
  erewrite bind_run by (rewrite (get_robot_data_run _ _ _ E), Hd; reflexivity).
  erewrite bind_run by exact IH. reflexivity.
Qed.

(** X3. Any number of requests for the current data made on a manager with
    no snapshot run one update cycle between them: the first request runs
    it, every request gets the snapshot of that cycle, and the world after
    all of them is the world after that one cycle. *)
Theorem requests_bootstrap_once (data_manager n : nat) (w : World)
    (o : DataManagerObj) :
  heap w !! data_manager = Some o ->
  current_data o = None ->
  requests data_manager (S n) w
  = (Ok (repeat (Some (Reading.snapshot_of_cycle w 0)) (S n)),
     snd (DataManager.update_data data_manager w)).
Proof.
  intros E Hnone. cbn [requests].
  erewrite bind_run
    by (rewrite (get_robot_data_run _ _ _ E), Hnone; reflexivity).
  erewrite bind_run
    by (eapply requests_present;
        [apply after_update_lookup; exact E | reflexivity]).
  rewrite (update_data_run _ _ _ E). reflexivity.
Qed.

Lemma requests_bootstrap_once_witness :
  exists w' : World,
    requests 0 3 booted_world
    = (Ok (repeat (Some (Reading.snapshot_of_cycle booted_world 0)) 3), w')
    /\ (length <$> (historical_data <$> heap w' !! 0%nat)) = Some 1%nat.
Proof.
  eexists. split.
  - apply (requests_bootstrap_once 0 2 booted_world new_manager);
      vm_compute; reflexivity.
  - vm_compute. reflexivity.
Defined.

Lemma live_after_update (self : nat) (w : World) (o : DataManagerObj) :
  live self w o -> live self (after_update self o w) (updated o w).
Proof.
  intros (Hinst & E & Hinit). split; [|split].
  - rewrite after_update_instance. exact Hinst.
  - apply after_update_lookup, E.
  - exact Hinit.
Qed.

(** One call on the live manager: it returns, and it either leaves the
    world as it was or leaves what one update cycle leaves. *)
Lemma run_call_live (data_manager : nat) (c : Call) (w : World)
    (o : DataManagerObj) :
  live data_manager w o ->
  run_call data_manager c w
  = (Ok tt,
     if runs_cycle c (has_current o) then after_update data_manager o w
     else w).
Proof.
  intros (Hinst & E & Hinit). destruct c; cbn [run_call runs_cycle].
  - apply update_data_run, E.
  - unfold bind. rewrite (get_robot_data_run _ _ _ E). unfold has_current.
    destruct (current_data o); reflexivity.
  - unfold get_historical_data, DataManager.get_historical_data.
    erewrite bind_run
      by (erewrite bind_run
            by (erewrite bind_run by (apply get_self_run; exact E);
                reflexivity);
          reflexivity).
    reflexivity.
  - erewrite bind_run by (eapply construct_run_again; eassumption).
    reflexivity.
Qed.

(** A sequence of calls on the live manager does what its update cycles
    do, the other calls changing nothing. *)
Lemma run_calls_live (data_manager : nat) (l : list Call) :
  forall (w : World) (o : DataManagerObj),
    live data_manager w o ->
    run_calls data_manager l w
    = cycles data_manager (cycles_in l (has_current o)) w.
Proof.
  induction l as [|c l IH]; intros w o Hlive; [reflexivity|].
  cbn [run_calls cycles_in].
  erewrite bind_run by (apply run_call_live; exact Hlive).
  destruct (runs_cycle c (has_current o)).
  - cbn [cycles].
    erewrite bind_run by (apply update_data_run, Hlive).
    apply (IH _ _ (live_after_update _ _ _ Hlive)).
  - apply IH, Hlive.
Qed.

Lemma cycles_heap_length (self : nat) (n : nat) :
  forall (w : World) (o : DataManagerObj),
    heap w !! self = Some o ->
    length (heap (snd (cycles self n w))) = length (heap w).
Proof.
  induction n as [|n IH]; intros w o E; [reflexivity|].
  cbn [cycles].
  erewrite bind_run by (apply update_data_run; exact E).
  rewrite (IH _ _ (after_update_lookup _ _ _ E)), after_update_heap.
  apply length_insert.
Qed.

(** X4. On the registered, initialized manager, any sequence of
    [update_data()], [GET /api/data], [GET /api/hist_data] and
    [DataManager()] calls returns normally and has the effect of its
    update cycles alone: the history it leaves is the one it found,
    untouched, followed by one record per cycle run, in order; nothing is
    removed or reordered, no second manager object is made, and a
    snapshot once present stays present. *)
Theorem calls_only_append (data_manager : nat) (l : list Call) (w : World)
    (o : DataManagerObj) :
  live data_manager w o ->
  let n := cycles_in l (has_current o) in
  exists (w' : World) (o' : DataManagerObj),
    run_calls data_manager l w = (Ok tt, w')
    /\ cycles data_manager n w = (Ok tt, w')
    /\ live data_manager w' o'
    /\ historical_data o'
       = historical_data o ++ map (Reading.record_of_cycle w) (seq 0 n)
    /\ length (historical_data o') = (length (historical_data o) + n)%nat
    /\ length (heap w') = length (heap w)
    /\ (has_current o = true -> has_current o' = true)
    /\ data_path o' = data_path o
    /\ hist_data_path o' = hist_data_path o.
Proof.
  intros Hlive n.
  pose proof Hlive as (Hinst & E & Hinit).
  destruct (cycles_run data_manager n w o E)
    as (w' & o' & Hrun & Hlook & Hhist & Hcur & Hini & Hp1 & Hp2 & Hinst').
  exists w', o'.
  split; [rewrite (run_calls_live _ _ _ _ Hlive); exact Hrun|].
  split; [exact Hrun|].
  split; [split; [congruence | split; [exact Hlook | congruence]]|].
  split; [exact Hhist|].
  split; [rewrite Hhist, length_app, length_map, length_seq; reflexivity|].
  split.
  { pose proof (cycles_heap_length data_manager n w o E) as Hlen.
    rewrite Hrun in Hlen. exact Hlen. }
  split.
  { unfold has_current. rewrite Hcur. destruct n; [auto | reflexivity]. }
  split; assumption.
Qed.

Lemma calls_only_append_witness :
  exists (w' : World) (o' : DataManagerObj),
    run_calls 0
      [CallGetHist; CallGetData; CallConstruct; CallGetData; CallUpdate;
       CallGetData] booted_world = (Ok tt, w')
    /\ heap w' !! 0%nat = Some o'
    /\ historical_data o'
       = map (Reading.record_of_cycle booted_world) (seq 0 2)
    /\ length (heap w') = 1%nat.
Proof.
  destruct (calls_only_append 0
              [CallGetHist; CallGetData; CallConstruct; CallGetData;
               CallUpdate; CallGetData] booted_world new_manager)
    as (w' & o' & Hrun & _ & (_ & Hlook & _) & Hhist & _ & Hlen & _).
  { repeat split; vm_compute; reflexivity. }
  exists w', o'. split; [exact Hrun|]. split; [exact Hlook|].
  split; [exact Hhist|]. exact Hlen.
Defined.

Lemma last_records (w : World) (h : list HistoricalRecord) (k : nat) :
  last (h ++ map (Reading.record_of_cycle w) (seq 0 (S k)))
  = Some (Reading.record_of_cycle w k).
Proof.
  rewrite seq_S, map_app, app_assoc. cbn [map Nat.add]. apply last_snoc.
Qed.

(** X5. The two endpoints agree.  On the live manager, after any sequence
    of calls that runs at least one update cycle, or that starts where the
    current snapshot is the one in the last record of the history, the
    current snapshot is again the one in the last record: what
    [get_current_data] returns is the [data] of the last record that
    [GET /api/hist_data] returns, and neither read changes anything. *)
Theorem endpoints_in_step (data_manager : nat) (l : list Call) (w : World)
    (o : DataManagerObj) :
  live data_manager w o ->
  in_step o \/ (0 < cycles_in l (has_current o))%nat ->
  exists (w' : World) (h : list HistoricalRecord),
    run_calls data_manager l w = (Ok tt, w')
    /\ get_historical_data data_manager w' = (Ok h, w')
    /\ DataManager.get_current_data data_manager w'
       = (Ok (data <$> last h), w').
Proof.
  intros Hlive Hstart.
  pose proof Hlive as (Hinst & E & Hinit).
  destruct (cycles_run data_manager (cycles_in l (has_current o)) w o E)
    as (w' & o' & Hrun & Hlook & Hhist & Hcur & _).
  exists w', (historical_data o').
  split; [rewrite (run_calls_live _ _ _ _ Hlive); exact Hrun|].
  split.
  { unfold get_historical_data, DataManager.get_historical_data.
    erewrite bind_run
      by (erewrite bind_run by (apply get_self_run; exact Hlook);
          reflexivity).
    reflexivity. }
  rewrite (get_current_data_run _ _ _ Hlook). f_equal. f_equal.
  rewrite Hcur, Hhist.
  destruct (cycles_in l (has_current o)) as [|k].
  - cbn [seq map]. rewrite app_nil_r.
    destruct Hstart as [Hstep|Hpos]; [exact Hstep | lia].
  - rewrite last_records. reflexivity.
Qed.

Lemma endpoints_in_step_witness :
  exists (w' : World) (h : list HistoricalRecord),
    run_calls 0 [CallGetData; CallUpdate; CallGetHist] booted_world
    = (Ok tt, w')
    /\ get_historical_data 0 w' = (Ok h, w')
    /\ DataManager.get_current_data 0 w'
       = (Ok (Some (Reading.snapshot_of_cycle booted_world 1)), w')
    /\ length h = 2%nat.
Proof.
  destruct (endpoints_in_step 0 [CallGetData; CallUpdate; CallGetHist]
              booted_world new_manager)
    as (w' & h & Hrun & Hhist & Hcur).
  { repeat split; vm_compute; reflexivity. }
  { right. vm_compute. lia. }
  exists w', h. split; [exact Hrun|]. split; [exact Hhist|].
  assert (Hw : w' = snd (run_calls 0 [CallGetData; CallUpdate; CallGetHist]
                           booted_world))
    by (rewrite Hrun; reflexivity).
  assert (Hh : h = map (Reading.record_of_cycle booted_world) (seq 0 2)).
  { rewrite Hw in Hhist. vm_compute in Hhist.
    injection Hhist as <-. vm_compute. reflexivity. }
  split.
  - rewrite Hcur, Hh. reflexivity.
  - rewrite Hh. reflexivity.
Defined.

(** ** What the API serves *)

Lemma snapshot_at_in_ranges (r : RandomSource) (clk : nat -> string)
    (p c : nat) :
  random_contract r -> snapshot_in_ranges (Reading.snapshot_at r clk p c).
Proof.
  intros Hr.
  assert (Hmotor : forall (q : nat) (i : Z),
            let m := DataProcessor.process_motor (Reading.motor_at r q i) in
            rounded_within 130 160 1 (velocity m)
            /\ rounded_within 10 30 1 (distance m)
            /\ rounded_within 65 80 1 (temperature m)).
  { intros q i. cbn. split; [|split].
    - apply rounded_draw;
        [exact Hr | exact PyFloatFacts.checked_130_160 | reflexivity].
    - apply rounded_draw;
        [exact Hr | exact PyFloatFacts.checked_10_30 | reflexivity].
    - apply rounded_draw;
        [exact Hr | exact PyFloatFacts.checked_65_80 | reflexivity]. }
  unfold snapshot_in_ranges. split; [reflexivity|]. split.
  { intros m [<-|[<-|[<-|[]]]]; apply Hmotor. }
  split.
  { eexists. split; [reflexivity|]. cbn. destruct Hr as [_ Hi].
    apply Hi. lia. }
  cbn. unfold Reading.axis_at.
  repeat split;
    apply rounded_draw;
    first [exact Hr | exact PyFloatFacts.checked_m1_1 | reflexivity].
Qed.

(** X2. Given a random source that keeps the contract of [uniform] and
    [randint], what a cycle publishes has the shape and the ranges of a
    simulated reading: the current snapshot it leaves, which is also the
    [data] of the record it appends, has motors 1, 2, 3 in order,
    velocity in
    [[130, 160]], distance in [[10, 30]], temperature in [[65, 80]], one
    pallet with id from 1 to 100, and centroid components in [[-1, 1]]. *)
Theorem published_snapshot_in_ranges (self : nat) (w : World)
    (o : DataManagerObj) :
  heap w !! self = Some o ->
  random_contract (random w) ->
  exists (w' : World) (o' : DataManagerObj) (d : ProcessedRobotData),
    DataManager.update_data self w = (Ok tt, w')
    /\ heap w' !! self = Some o'
    /\ current_data o' = Some d
    /\ (data <$> last (historical_data o')) = Some d
    /\ snapshot_in_ranges d.
Proof.
  intros E Hr.
  exists (after_update self o w), (updated o w),
    (Reading.snapshot_at (random w) (clock w) (random_pos w) (clock_pos w)).
  split; [apply update_data_run, E|].
  split; [apply after_update_lookup, E|].
  split; [reflexivity|].
  split; [cbn; rewrite last_snoc; reflexivity|].
  apply snapshot_at_in_ranges, Hr.
Qed.

Lemma published_snapshot_in_ranges_witness :
  exists (w' : World) (o' : DataManagerObj) (d : ProcessedRobotData),
    DataManager.update_data 0 booted_world = (Ok tt, w')
    /\ current_data o' = Some d
    /\ snapshot_in_ranges d.
Proof.
  destruct (published_snapshot_in_ranges 0 booted_world new_manager)
    as (w' & o' & d & Hrun & _ & Hcur & _ & Hin).
  { vm_compute. reflexivity. }
  { exact low_random_contract. }
  exists w', o', d. auto.
Defined.

(** ** What a cycle leaves on the disk *)

(** The content of a file after an attempt to write [doc] over it. *)
Lemma after_write_files (path : string) (doc : Document) (info : LogLine)
    (erro : exn -> LogLine) (w : World) (p : string) :
  files (after_write path doc info erro w) !! p
  = if decide (p = path) then
      match io_fault w (io_pos w) with
      | IoOk => Some doc
      | IoOpenFails => files w !! p
      | IoWriteFails => Some truncated
      end
    else files w !! p.
Proof.
  unfold after_write.
  destruct (decide (p = path)) as [->|Hne];
    destruct (io_fault w (io_pos w)); cbn;
    rewrite ?lookup_insert_eq, ?lookup_insert_ne by congruence;
    reflexivity.
Qed.

Lemma after_write_io (path : string) (doc : Document) (info : LogLine)
    (erro : exn -> LogLine) (w : World) :
  io_fault (after_write path doc info erro w) = io_fault w
  /\ io_pos (after_write path doc info erro w) = S (io_pos w).
Proof.
  unfold after_write. destruct (io_fault w (io_pos w)); split; reflexivity.
Qed.

Lemma after_update_files (self : nat) (o : DataManagerObj) (w : World)
    (p : string) :
  data_path o <> hist_data_path o ->
  files (after_update self o w) !! p
  = if decide (p = data_path o) then
      match io_fault w (io_pos w) with
      | IoOk => Some (dump_snapshot (Reading.snapshot_of_cycle w 0))
      | IoOpenFails => files w !! p
      | IoWriteFails => Some truncated
      end
    else if decide (p = hist_data_path o) then
      match io_fault w (S (io_pos w)) with
      | IoOk =>
          Some (dump_history
                  (historical_data o ++ [Reading.record_of_cycle w 0]))
      | IoOpenFails => files w !! p
      | IoWriteFails => Some truncated
      end
    else files w !! p.
Proof.
  intros Hne. unfold after_update. cbn [files set_stdout set_clock_pos].
  cbn [current_data updated DataManager.with_historical_data
       DataManager.with_current_data data_path hist_data_path
       historical_data].
  rewrite !after_write_files.
  destruct (after_write_io (data_path o)
              (dump_snapshot
                 (Reading.snapshot_at (random w) (clock w) (random_pos w)
                    (clock_pos w)))
              (INFO_current_saved (data_path o)) ERRO_current_save
              (set_heap
                 (<[self := updated o w]> (heap w))
                 (set_clock_pos (2 + clock_pos w)
                    (set_random_pos (13 + random_pos w) w))))
    as [Hf Hp].
  cbn [updated DataManager.with_historical_data
       DataManager.with_current_data] in Hf, Hp.
  rewrite Hf, Hp. cbn [io_fault io_pos files set_heap set_clock_pos
                       set_random_pos].
  destruct (decide (p = data_path o)) as [E1|H1],
    (decide (p = hist_data_path o)) as [E2|H2];
    try reflexivity.
  congruence.
Qed.

Lemma after_update_current_file (self : nat) (o : DataManagerObj)
    (w : World) :
  data_path o <> hist_data_path o ->
  files (after_update self o w) !! data_path o
  = match io_fault w (io_pos w) with
    | IoOk => Some (dump_snapshot (Reading.snapshot_of_cycle w 0))
    | IoOpenFails => files w !! data_path o
    | IoWriteFails => Some truncated
    end.
Proof.
  intros Hne. rewrite after_update_files by exact Hne.
  rewrite decide_True by reflexivity. reflexivity.
Qed.

Lemma after_update_hist_file (self : nat) (o : DataManagerObj) (w : World) :
  data_path o <> hist_data_path o ->
  files (after_update self o w) !! hist_data_path o
  = match io_fault w (S (io_pos w)) with
    | IoOk =>
        Some (dump_history
                (historical_data o ++ [Reading.record_of_cycle w 0]))
    | IoOpenFails => files w !! hist_data_path o
    | IoWriteFails => Some truncated
    end.
Proof.
  intros Hne. rewrite after_update_files by exact Hne.
  rewrite decide_False by congruence.
  rewrite decide_True by reflexivity. reflexivity.
Qed.

(** X6. What a cycle leaves on the disk, whatever becomes of its two
    writes (the two paths being different): each of the two files holds
    the new state in full when its write succeeded, is as it was when it
    could not be opened, and is cut short when the write broke off; a
    failure on one file changes nothing for the other; and no other file
    is touched. *)
Theorem files_after_update (self : nat) (w : World) (o : DataManagerObj) :
  heap w !! self = Some o ->
  data_path o <> hist_data_path o ->
  exists (w' : World) (o' : DataManagerObj) (d : ProcessedRobotData),
    DataManager.update_data self w = (Ok tt, w')
    /\ heap w' !! self = Some o'
    /\ current_data o' = Some d
    /\ files w' !! data_path o
       = match io_fault w (io_pos w) with
         | IoOk => Some (dump_snapshot d)
         | IoOpenFails => files w !! data_path o
         | IoWriteFails => Some truncated
         end
    /\ files w' !! hist_data_path o
       = match io_fault w (S (io_pos w)) with
         | IoOk => Some (dump_history (historical_data o'))
         | IoOpenFails => files w !! hist_data_path o
         | IoWriteFails => Some truncated
         end
    /\ (forall p : string,
          p <> data_path o -> p <> hist_data_path o ->
          files w' !! p = files w !! p).
Proof.
  intros E Hne.
  exists (after_update self o w), (updated o w),
    (Reading.snapshot_of_cycle w 0).
  split; [apply update_data_run, E|].
  split; [apply after_update_lookup, E|].
  split; [reflexivity|].
  split; [|split].
  - apply after_update_current_file, Hne.
  - apply after_update_hist_file, Hne.
  - intros p H1 H2. rewrite after_update_files by exact Hne.
    rewrite !decide_False by assumption. reflexivity.
Qed.

Lemma files_after_update_witness :
  exists w' : World,
    DataManager.update_data 0 booted_world = (Ok tt, w')
    /\ files w' !! "data/robot_data.json"
       = Some (dump_snapshot (Reading.snapshot_of_cycle booted_world 0))
    /\ files w' !! "data/hist_data.json"
       = Some (dump_history [Reading.record_of_cycle booted_world 0])
    /\ files w' !! "data/other.json" = None.
Proof.
  destruct (files_after_update 0 booted_world new_manager)
    as (w' & o' & d & Hrun & Hlook & Hcur & Hf1 & Hf2 & Hother).
  { vm_compute. reflexivity. }
  { discriminate. }
  exists w'. split; [exact Hrun|].
  rewrite (update_data_run 0 new_manager) in Hrun by (vm_compute; reflexivity).
  injection Hrun as <-.
  rewrite after_update_lookup in Hlook by (vm_compute; reflexivity).
  injection Hlook as <-. injection Hcur as <-.
  split; [exact Hf1|]. split; [exact Hf2|].
  rewrite Hother by discriminate. reflexivity.
Defined.

(** ** Restarting the process *)

Lemma after_update_io (self : nat) (o : DataManagerObj) (w : World) :
  io_fault (after_update self o w) = io_fault w
  /\ io_pos (after_update self o w) = S (S (io_pos w)).
Proof.
  unfold after_update, after_write; cbn.
  destruct (io_fault w (io_pos w)); cbn;
    destruct (io_fault w (S (io_pos w))); split; reflexivity.
Qed.

(** What a file gives when it is read without an I/O error: nothing when
    it is not there or does not deserialize. *)
Lemma load_attempt_ok {A : Type} (parse : Document -> DecodeError + A)
    (file : option Document) (before : A) :
  loaded_or (load_attempt parse file IoOk) before
  = match file with
    | Some doc =>
        match parse doc with
        | inr a => a
        | inl _ => before
        end
    | None => before
    end.
Proof.
  destruct file as [doc|]; [|reflexivity]. cbn.
  destruct (parse doc); reflexivity.
Qed.

(** What a new process recovers from the disk when its three file-system
    calls go through. *)
Lemma restart_recovers (w : World) :
  (forall i : nat, (i < 3)%nat -> io_fault w (i + io_pos w)%nat = IoOk) ->
  exists (w' : World) (o' : DataManagerObj),
    DataManager.construct (restart w) = (Ok 0%nat, w')
    /\ live 0 w' o'
    /\ current_data o'
       = match files w !! "data/robot_data.json" with
         | Some doc =>
             match as_snapshot doc with
             | inr d => Some d
             | inl _ => None
             end
         | None => None
         end
    /\ historical_data o'
       = match files w !! "data/hist_data.json" with
         | Some doc =>
             match as_history doc with
             | inr h => h
             | inl _ => []
             end
         | None => []
         end
    /\ stdout w'
       = load_lines
           (load_attempt as_snapshot (files w !! "data/robot_data.json") IoOk)
           (fun _ => INFO_current_loaded "data/robot_data.json")
           AVISO_current_load
         ++ load_lines
              (load_attempt as_history (files w !! "data/hist_data.json")
                 IoOk)
              (fun h => INFO_hist_loaded (length h)) AVISO_hist_load.
Proof.
  intros Hio.
  pose proof (Hio 0%nat ltac:(lia)) as H0.
  pose proof (Hio 1%nat ltac:(lia)) as H1.
  pose proof (Hio 2%nat ltac:(lia)) as H2.
  cbn [Nat.add] in H0, H1, H2.
  set (a1 := load_attempt as_snapshot (files w !! "data/robot_data.json")
               IoOk).
  set (a2 := load_attempt as_history (files w !! "data/hist_data.json")
               IoOk).
  exists (after_init 0
            (set_DataManager_instance (Some 0%nat)
               (set_heap ([] ++ [DataManager.blank]) (restart w)))),
    (DataManager.with_historical_data (loaded_or a2 [])
       (DataManager.with_current_data (loaded_or (lift_loaded a1) None)
          new_manager)).
  assert (Hlook :
    heap (after_init 0
            (set_DataManager_instance (Some 0%nat)
               (set_heap ([] ++ [DataManager.blank]) (restart w))))
      !! 0%nat
    = Some (DataManager.with_historical_data (loaded_or a2 [])
              (DataManager.with_current_data
                 (loaded_or (lift_loaded a1) None) new_manager))).
  { unfold after_init.
    erewrite after_load_historical_lookup
      by (apply after_load_current_lookup; reflexivity).
    cbn. rewrite H1.
    fold a1. destruct a1 as [[e|d]|] eqn:Ha1; cbn; rewrite ?H1, ?H2;
      reflexivity. }
  split; [apply (construct_run_first (restart w)); [reflexivity | exact H0]|].
  split; [split; [reflexivity | split; [exact Hlook | reflexivity]]|].
  split.
  { cbn [current_data DataManager.with_historical_data
         DataManager.with_current_data].
    unfold a1. destruct (files w !! "data/robot_data.json") as [doc|];
      [|reflexivity].
    cbn. destruct (as_snapshot doc); reflexivity. }
  split.
  { cbn [historical_data DataManager.with_historical_data].
    unfold a2. apply load_attempt_ok. }
  cbn. rewrite H1. fold a1.
  destruct a1 as [[e|d]|] eqn:Ha1; cbn; rewrite ?H1, ?H2; reflexivity.
Qed.

(** The file-system calls of the process that follows a cycle. *)
Lemma io_after_update (self : nat) (o : DataManagerObj) (w : World) :
  (forall i : nat, (i < 3)%nat -> io_fault w (i + (2 + io_pos w))%nat = IoOk) ->
  forall i : nat,
    (i < 3)%nat ->
    io_fault (after_update self o w) (i + io_pos (after_update self o w))%nat
    = IoOk.
Proof.
  intros Hio i Hi. destruct (after_update_io self o w) as [-> ->].
  apply Hio, Hi.
Qed.

(** X7. Save and reload.  When both writes of a cycle succeed and the
    process is then restarted with a disk it can read, the new manager
    starts with exactly the current snapshot and exactly the history the
    old one had in memory after that cycle. *)
Theorem restart_after_saved_cycle (self : nat) (w : World)
    (o : DataManagerObj) :
  heap w !! self = Some o ->
  data_path o = "data/robot_data.json" ->
  hist_data_path o = "data/hist_data.json" ->
  io_fault w (io_pos w) = IoOk ->
  io_fault w (S (io_pos w)) = IoOk ->
  (forall i : nat, (i < 3)%nat -> io_fault w (i + (2 + io_pos w))%nat = IoOk) ->
  exists (w1 : World) (o1 : DataManagerObj) (w2 : World)
         (o2 : DataManagerObj),
    DataManager.update_data self w = (Ok tt, w1)
    /\ heap w1 !! self = Some o1
    /\ DataManager.construct (restart w1) = (Ok 0%nat, w2)
    /\ live 0 w2 o2
    /\ current_data o2 = current_data o1
    /\ historical_data o2 = historical_data o1
    /\ stdout w2
       = [INFO_current_loaded "data/robot_data.json";
          INFO_hist_loaded (length (historical_data o1))].
Proof.
  intros E Hp1 Hp2 Hw1 Hw2 Hio.
  assert (Hne : data_path o <> hist_data_path o)
    by (rewrite Hp1, Hp2; discriminate).
  destruct (restart_recovers (after_update self o w)
              (io_after_update self o w Hio))
    as (w2 & o2 & Hrun & Hlive & Hcur & Hhist & Hout).
  exists (after_update self o w), (updated o w), w2, o2.
  split; [apply update_data_run, E|].
  split; [apply after_update_lookup, E|].
  split; [exact Hrun|]. split; [exact Hlive|].
  rewrite <- Hp1 in Hcur, Hout. rewrite <- Hp2 in Hhist, Hout.
  rewrite (after_update_current_file self o w Hne), Hw1 in Hcur, Hout.
  rewrite (after_update_hist_file self o w Hne), Hw2 in Hhist, Hout.
  split; [exact Hcur|]. split; [exact Hhist|].
  rewrite Hout, Hp1. reflexivity.
Qed.

Lemma restart_after_saved_cycle_witness :
  exists (w2 : World) (o2 : DataManagerObj),
    DataManager.construct restarted_world = (Ok 0%nat, w2)
    /\ heap w2 !! 0%nat = Some o2
    /\ current_data o2 = Some (Reading.snapshot_of_cycle booted_world 0)
    /\ historical_data o2 = [Reading.record_of_cycle booted_world 0].
Proof.
  destruct (restart_after_saved_cycle 0 booted_world new_manager)
    as (w1 & o1 & w2 & o2 & Hupd & Hlook & Hrun & (_ & Hlook2 & _) & Hcur
        & Hhist & _);
    try (vm_compute; reflexivity).
  rewrite (update_data_run 0 new_manager) in Hupd by (vm_compute; reflexivity).
  injection Hupd as <-.
  rewrite after_update_lookup in Hlook by (vm_compute; reflexivity).
  injection Hlook as <-.
  unfold restarted_world.
  rewrite (update_data_run 0 new_manager) by (vm_compute; reflexivity).
  cbn [snd].
  exists w2, o2. split; [exact Hrun|]. split; [exact Hlook2|].
  split; [exact Hcur | exact Hhist].
Defined.

(** X8. A write that breaks off costs the snapshot on restart.  When the
    write of the current snapshot breaks off after the file was opened,
    the history write succeeds, and the process is restarted with a disk
    it can read, the new manager prints a warning for the current-state
    file and starts with no current snapshot, while its history is the
    full history of the old one, new record included. *)
Theorem restart_after_torn_write (self : nat) (w : World)
    (o : DataManagerObj) :
  heap w !! self = Some o ->
  data_path o = "data/robot_data.json" ->
  hist_data_path o = "data/hist_data.json" ->
  io_fault w (io_pos w) = IoWriteFails ->
  io_fault w (S (io_pos w)) = IoOk ->
  (forall i : nat, (i < 3)%nat -> io_fault w (i + (2 + io_pos w))%nat = IoOk) ->
  exists (w1 : World) (o1 : DataManagerObj) (w2 : World)
         (o2 : DataManagerObj),
    DataManager.update_data self w = (Ok tt, w1)
    /\ heap w1 !! self = Some o1
    /\ is_Some (current_data o1)
    /\ DataManager.construct (restart w1) = (Ok 0%nat, w2)
    /\ live 0 w2 o2
    /\ current_data o2 = None
    /\ historical_data o2 = historical_data o1
    /\ stdout w2
       = [AVISO_current_load (Decode JSONDecodeError);
          INFO_hist_loaded (length (historical_data o1))].
Proof.
  intros E Hp1 Hp2 Hw1 Hw2 Hio.
  assert (Hne : data_path o <> hist_data_path o)
    by (rewrite Hp1, Hp2; discriminate).
  destruct (restart_recovers (after_update self o w)
              (io_after_update self o w Hio))
    as (w2 & o2 & Hrun & Hlive & Hcur & Hhist & Hout).
  exists (after_update self o w), (updated o w), w2, o2.
  split; [apply update_data_run, E|].
  split; [apply after_update_lookup, E|].
  split; [eexists; reflexivity|].
  split; [exact Hrun|]. split; [exact Hlive|].
  rewrite <- Hp1 in Hcur, Hout. rewrite <- Hp2 in Hhist, Hout.
  rewrite (after_update_current_file self o w Hne), Hw1 in Hcur, Hout.
  rewrite (after_update_hist_file self o w Hne), Hw2 in Hhist, Hout.
  split; [exact Hcur|]. split; [exact Hhist|]. exact Hout.
Qed.

(** X9. A write that cannot start leaves a stale file.  When the
    current-state file cannot be opened for writing during a cycle while
    the history write succeeds, the file keeps the snapshot of before;
    after a restart with a readable disk the new manager has that older
    snapshot as current, next to a history whose last record holds the
    newer one. *)
Theorem restart_after_refused_write (self : nat) (w : World)
    (o : DataManagerObj) (stale : ProcessedRobotData) :
  heap w !! self = Some o ->
  data_path o = "data/robot_data.json" ->
  hist_data_path o = "data/hist_data.json" ->
  files w !! "data/robot_data.json" = Some (dump_snapshot stale) ->
  io_fault w (io_pos w) = IoOpenFails ->
  io_fault w (S (io_pos w)) = IoOk ->
  (forall i : nat, (i < 3)%nat -> io_fault w (i + (2 + io_pos w))%nat = IoOk) ->
  exists (w1 : World) (o1 : DataManagerObj) (w2 : World)
         (o2 : DataManagerObj),
    DataManager.update_data self w = (Ok tt, w1)
    /\ heap w1 !! self = Some o1
    /\ current_data o1 = Some (Reading.snapshot_of_cycle w 0)
    /\ DataManager.construct (restart w1) = (Ok 0%nat, w2)
    /\ live 0 w2 o2
    /\ current_data o2 = Some stale
    /\ historical_data o2 = historical_data o1
    /\ (data <$> last (historical_data o2))
       = Some (Reading.snapshot_of_cycle w 0).
Proof.
  intros E Hp1 Hp2 Hfile Hw1 Hw2 Hio.
  assert (Hne : data_path o <> hist_data_path o)
    by (rewrite Hp1, Hp2; discriminate).
  destruct (restart_recovers (after_update self o w)
              (io_after_update self o w Hio))
    as (w2 & o2 & Hrun & Hlive & Hcur & Hhist & _).
  exists (after_update self o w), (updated o w), w2, o2.
  split; [apply update_data_run, E|].
  split; [apply after_update_lookup, E|].
  split; [reflexivity|].
  split; [exact Hrun|]. split; [exact Hlive|].
  rewrite <- Hp1 in Hcur. rewrite <- Hp2 in Hhist.
  rewrite (after_update_current_file self o w Hne), Hw1 in Hcur.
  rewrite (after_update_hist_file self o w Hne), Hw2 in Hhist.
  rewrite Hp1, Hfile in Hcur.
  split; [exact Hcur|]. split; [exact Hhist|].
  rewrite Hhist. cbn. rewrite last_snoc. reflexivity.
Qed.

Lemma restart_after_torn_write_witness :
  exists (w1 : World) (w2 : World) (o2 : DataManagerObj),
    DataManager.update_data 0 torn_write_world = (Ok tt, w1)
    /\ DataManager.construct (restart w1) = (Ok 0%nat, w2)
    /\ heap w2 !! 0%nat = Some o2
    /\ current_data o2 = None
    /\ length (historical_data o2) = 1%nat.
Proof.
  destruct (restart_after_torn_write 0 torn_write_world new_manager)
    as (w1 & o1 & w2 & o2 & Hupd & Hlook & _ & Hrun & (_ & Hlook2 & _)
        & Hcur & Hhist & _);
    [vm_compute; reflexivity..
    | intros i Hi;
      do 3 (destruct i as [|i]; [vm_compute; reflexivity|]); lia
    |].
  exists w1, w2, o2. split; [exact Hupd|]. split; [exact Hrun|].
  split; [exact Hlook2|]. split; [exact Hcur|].
  rewrite (update_data_run 0 new_manager) in Hupd by (vm_compute; reflexivity).
  injection Hupd as <-.
  rewrite after_update_lookup in Hlook by (vm_compute; reflexivity).
  injection Hlook as <-.
  rewrite Hhist. reflexivity.
Defined.

Lemma restart_after_refused_write_witness :
  exists (w1 : World) (o1 : DataManagerObj) (w2 : World)
         (o2 : DataManagerObj),
    DataManager.update_data 0 refused_write_world = (Ok tt, w1)
    /\ heap w1 !! 0%nat = Some o1
    /\ DataManager.construct (restart w1) = (Ok 0%nat, w2)
    /\ heap w2 !! 0%nat = Some o2
    /\ current_data o2 = Some (data old_record)
    /\ current_data o1 = Some (Reading.snapshot_of_cycle refused_write_world 0)
    /\ current_data o2 <> current_data o1.
Proof.
  destruct (restart_after_refused_write 0 refused_write_world new_manager
              (data old_record))
    as (w1 & o1 & w2 & o2 & Hupd & Hlook & Hnew & Hrun & (_ & Hlook2 & _)
        & Hcur & _);
    [vm_compute; reflexivity..
    | intros i Hi;
      do 3 (destruct i as [|i]; [vm_compute; reflexivity|]); lia
    |].
  exists w1, o1, w2, o2. split; [exact Hupd|]. split; [exact Hlook|].
  split; [exact Hrun|]. split; [exact Hlook2|]. split; [exact Hcur|].
  split; [exact Hnew|].
  rewrite Hcur, Hnew. vm_compute. discriminate.
Defined.

(** ** Construction, once more *)

(** The first construction, by the fate of the directory. *)
Lemma construct_first_eq (w : World) :
  DataManager_instance w = None ->
  DataManager.construct w
  = let self := length (heap w) in
    let w0 :=
      set_DataManager_instance (Some self)
        (set_heap (heap w ++ [DataManager.blank]) w) in
    match io_fault w (io_pos w) with
    | IoOk => (Ok self, after_init self w0)
    | _ =>
        (Raise OSError,
         set_io_pos (S (io_pos w))
           (set_heap (<[self := new_manager]> (heap w0)) w0))
    end.
Proof.
  intros Hnone. cbv zeta.
  set (self := length (heap w)).
  set (w0 := set_DataManager_instance (Some self)
               (set_heap (heap w ++ [DataManager.blank]) w)).
  assert (E0 : heap w0 !! self = Some DataManager.blank)
    by (apply list_lookup_middle; reflexivity).
  unfold DataManager.construct.
  erewrite bind_run by (apply new_run_first; exact Hnone).
  fold self. fold w0. unfold bind.
  rewrite (init_run_first self DataManager.blank w0 E0 eq_refl).
  change (io_fault w0 (io_pos w0)) with (io_fault w (io_pos w)).
  destruct (io_fault w (io_pos w)); reflexivity.
Qed.

(** X10. [DataManager()] only reads: whatever the world, whether it is the
    first construction or a later one and whether it returns or raises,
    it leaves every file as it found it, makes no draw from the random
    source and does not read the clock. *)
Theorem construct_only_reads (w : World) :
  files (snd (DataManager.construct w)) = files w
  /\ random_pos (snd (DataManager.construct w)) = random_pos w
  /\ clock_pos (snd (DataManager.construct w)) = clock_pos w.
Proof.
  destruct (DataManager_instance w) as [self|] eqn:Hinst.
  - unfold DataManager.construct.
    erewrite bind_run by (apply new_run_again; exact Hinst).
    destruct (heap w !! self) as [o|] eqn:E.
    + destruct (_initialized o) eqn:Hinit.
      * erewrite bind_run by (eapply init_run_again; eassumption).
        repeat split.
      * unfold bind. rewrite (init_run_first self o w E Hinit).
        destruct (io_fault w (io_pos w)); repeat split.
    + unfold bind, DataManager.__init__, DataManager.get_self.
      unfold bind. rewrite E. repeat split.
  - rewrite (construct_first_eq w Hinst). cbv zeta.
    destruct (io_fault w (io_pos w)); repeat split.
Qed.

(** X11. A first construction that fails leaves a manager that is never
    loaded.  When the data directory cannot be made, the first
    [DataManager()] raises [OSError] having read no file; the instance is
    registered and marked initialized all the same, so the next
    [DataManager()] returns it as it is, with no current snapshot and an
    empty history, and still reads no file, whatever the disk holds. *)
Theorem failed_construction_is_not_retried (w : World) :
  DataManager_instance w = None ->
  io_fault w (io_pos w) <> IoOk ->
  exists (w1 : World) (o1 : DataManagerObj),
    DataManager.construct w = (Raise OSError, w1)
    /\ DataManager.construct w1 = (Ok (length (heap w)), w1)
    /\ live (length (heap w)) w1 o1
    /\ current_data o1 = None
    /\ historical_data o1 = []
    /\ stdout w1 = stdout w
    /\ io_pos w1 = S (io_pos w).
Proof.
  intros Hnone Hfail.
  set (self := length (heap w)).
  set (w0 := set_DataManager_instance (Some self)
               (set_heap (heap w ++ [DataManager.blank]) w)).
  set (w1 := set_io_pos (S (io_pos w))
               (set_heap (<[self := new_manager]> (heap w0)) w0)).
  assert (Hlook : heap w1 !! self = Some new_manager).
  { cbn. eapply lookup_after_insert. apply list_lookup_middle. reflexivity. }
  exists w1, new_manager.
  split.
  { rewrite (construct_first_eq w Hnone). cbv zeta. fold self w0 w1.
    destruct (io_fault w (io_pos w)); [congruence | reflexivity..]. }
  split.
  { apply (construct_run_again self new_manager w1);
      [reflexivity | exact Hlook | reflexivity]. }
  split; [split; [reflexivity | split; [exact Hlook | reflexivity]]|].
  repeat split.
Qed.

Lemma failed_construction_is_not_retried_witness :
  exists w1 : World,
    DataManager.construct no_directory_world = (Raise OSError, w1)
    /\ DataManager.construct w1 = (Ok 0%nat, w1)
    /\ heap w1 !! 0%nat = Some new_manager.
Proof.
  destruct (failed_construction_is_not_retried no_directory_world)
    as (w1 & o1 & Hfirst & Hsecond & (_ & Hlook & _) & _).
  { reflexivity. }
  { discriminate. }
  exists w1. split; [exact Hfirst|]. split; [exact Hsecond|].
  assert (Hw : w1 = snd (DataManager.construct no_directory_world))
    by (rewrite Hfirst; reflexivity).
  rewrite Hw. vm_compute. reflexivity.
Defined.

(** ** The loop on the real manager *)

Lemma scheduled_pass_update (a : nat) (o : DataManagerObj) (w : World) :
  heap w !! a = Some o ->
  scheduled_pass (DataManager.update_data a) w
  = set_slept (slept w ++ [2])
      (set_await_pos (S (await_pos w)) (after_update a o w)).
Proof.
  intros E. unfold scheduled_pass. rewrite (update_data_run _ _ _ E).
  rewrite after_update_slept, after_update_await_pos. reflexivity.
Qed.

(** A wait changes nothing but the task's scheduling. *)
Lemma waited_heap (l : list Z) (n : nat) (w : World) :
  heap (set_slept l (set_await_pos n w)) = heap w.
Proof. reflexivity. Qed.

Lemma waited_record_of_cycle (l : list Z) (n : nat) (w : World) (k : nat) :
  Reading.record_of_cycle (set_slept l (set_await_pos n w)) k
  = Reading.record_of_cycle w k.
Proof. reflexivity. Qed.

Lemma waited_snapshot_of_cycle (l : list Z) (n : nat) (w : World)
    (k : nat) :
  Reading.snapshot_of_cycle (set_slept l (set_await_pos n w)) k
  = Reading.snapshot_of_cycle w k.
Proof. reflexivity. Qed.

Lemma waited_stdout (l : list Z) (n : nat) (w : World) :
  stdout (set_slept l (set_await_pos n w)) = stdout w.
Proof. reflexivity. Qed.

Lemma scheduled_pass_lookup (a : nat) (o : DataManagerObj) (w : World) :
  heap w !! a = Some o ->
  heap (scheduled_pass (DataManager.update_data a) w) !! a
  = Some (updated o w).
Proof.
  intros E. rewrite (scheduled_pass_update a o w E), waited_heap.
  apply after_update_lookup, E.
Qed.

Lemma record_of_cycle_pass (a : nat) (o : DataManagerObj) (w : World)
    (k : nat) :
  heap w !! a = Some o ->
  Reading.record_of_cycle (scheduled_pass (DataManager.update_data a) w) k
  = Reading.record_of_cycle w (S k).
Proof.
  intros E. rewrite (scheduled_pass_update a o w E), waited_record_of_cycle.
  apply record_of_cycle_shift.
Qed.

Lemma snapshot_of_cycle_pass (a : nat) (o : DataManagerObj) (w : World)
    (k : nat) :
  heap w !! a = Some o ->
  Reading.snapshot_of_cycle (scheduled_pass (DataManager.update_data a) w) k
  = Reading.snapshot_of_cycle w (S k).
Proof.
  intros E. rewrite (scheduled_pass_update a o w E), waited_snapshot_of_cycle.
  apply snapshot_of_cycle_shift.
Qed.

Lemma passes_data (a : nat) (n : nat) :
  forall (w : World) (o : DataManagerObj),
    heap w !! a = Some o ->
    exists o' : DataManagerObj,
      heap (Nat.iter n (scheduled_pass (DataManager.update_data a)) w) !! a
      = Some o'
      /\ historical_data o'
         = historical_data o ++ map (Reading.record_of_cycle w) (seq 0 n)
      /\ current_data o'
         = match n with
           | O => current_data o
           | S k => Some (Reading.snapshot_of_cycle w k)
           end.
Proof.
  induction n as [|n IH]; intros w o E.
  - exists o. cbn. rewrite app_nil_r. auto.
  - rewrite Nat.iter_succ, <- Nat.iter_swap.
    destruct (IH _ _ (scheduled_pass_lookup a o w E))
      as (o' & Hlook & Hhist & Hcur).
    exists o'. split; [exact Hlook|]. split.
    + rewrite Hhist.
      cbn [updated historical_data DataManager.with_historical_data
           DataManager.with_current_data].
      rewrite <- app_assoc. f_equal.
      change (seq 0 (S n)) with (0%nat :: seq 1 n).
      rewrite <- seq_shift. simpl. f_equal. rewrite map_map.
      apply map_ext. intros k. apply (record_of_cycle_pass a o w k E).
    + rewrite Hcur. destruct n as [|k]; [reflexivity|].
      rewrite (snapshot_of_cycle_pass a o w k E). reflexivity.
Qed.

Lemma manager_ref_update (self : BackgroundTaskManager DataManagerRef) :
  update_data_of (data_manager self)
  = DataManager.update_data (address (data_manager self)).
Proof. reflexivity. Qed.

(** X12. On the real manager, the passes of the loop are update cycles.
    While no cancellation arrives, the loop started on a live manager
    has, after [n] passes, appended exactly [n] records to the history,
    one per pass and in order, left as current snapshot the one of the
    last pass, and made [n] waits of 2: the loop neither skips nor
    repeats a cycle. *)
Theorem loop_passes_are_cycles (a n : nat) (w : World) (o : DataManagerObj) :
  heap w !! a = Some o ->
  (forall i : nat, (i < n)%nat -> cancel_at w (i + await_pos w) = false) ->
  let self := start (BackgroundTaskManager_init {| address := a |}) in
  exists (w' : World) (o' : DataManagerObj),
    data_update_loop self n w = (Ok tt, w')
    /\ heap w' !! a = Some o'
    /\ historical_data o'
       = historical_data o ++ map (Reading.record_of_cycle w) (seq 0 n)
    /\ length (historical_data o') = (length (historical_data o) + n)%nat
    /\ current_data o'
       = match n with
         | O => current_data o
         | S k => Some (Reading.snapshot_of_cycle w k)
         end
    /\ slept w' = slept w ++ repeat 2 n.
Proof.
  intros E Hgo self.
  pose proof (@while_true_run DataManagerRef DataManager_like self
                (manager_ref_raises_only_Exceptions _)
                (manager_ref_synchronous _) n
                (set_stdout (stdout w ++ [INFO_loop_starting]) w) Hgo)
    as Hloop.
  pose proof (@passes_slept DataManagerRef DataManager_like self
                (manager_ref_synchronous _) n
                (set_stdout (stdout w ++ [INFO_loop_starting]) w))
    as Hslept.
  rewrite manager_ref_update in Hloop, Hslept.
  destruct (passes_data a n
              (set_stdout (stdout w ++ [INFO_loop_starting]) w) o E)
    as (o' & Hlook & Hhist & Hcur).
  exists (Nat.iter n (scheduled_pass (DataManager.update_data a))
            (set_stdout (stdout w ++ [INFO_loop_starting]) w)), o'.
  split; [exact Hloop|]. split; [exact Hlook|].
  split; [exact Hhist|].
  split; [rewrite Hhist, length_app, length_map, length_seq; reflexivity|].
  split; [exact Hcur|]. exact Hslept.
Qed.

Lemma loop_passes_are_cycles_witness :
  exists (w' : World) (o' : DataManagerObj),
    data_update_loop (start (BackgroundTaskManager_init {| address := 0 |}))
      3 booted_world = (Ok tt, w')
    /\ heap w' !! 0%nat = Some o'
    /\ length (historical_data o') = 3%nat
    /\ current_data o' = Some (Reading.snapshot_of_cycle booted_world 2)
    /\ slept w' = [2; 2; 2].
Proof.
  pose proof (loop_passes_are_cycles 0 3 booted_world new_manager) as Hthm.
  destruct Hthm as (w' & o' & Hrun & Hlook & _ & Hlen & Hcur & Hslept).
  { vm_compute. reflexivity. }
  { intros i Hi. vm_compute. reflexivity. }
  exists w', o'. split; [exact Hrun|]. split; [exact Hlook|].
  split; [exact Hlen|]. split; [exact Hcur|]. exact Hslept.
Defined.

(** X13. The history outlives the process.  A process restarted on a
    disk it can read, whose history file holds the history [h] some
    earlier process saved, starts with [h], and [n] update cycles later
    its history is [h], untouched, followed by the [n] new records. *)
Theorem history_grows_across_restarts (w : World)
    (h : list HistoricalRecord) (n : nat) :
  files w !! "data/hist_data.json" = Some (dump_history h) ->
  (forall i : nat, (i < 3)%nat -> io_fault w (i + io_pos w)%nat = IoOk) ->
  exists (w1 w2 : World) (o2 : DataManagerObj),
    DataManager.construct (restart w) = (Ok 0%nat, w1)
    /\ DataManager.get_historical_data 0 w1 = (Ok h, w1)
    /\ cycles 0 n w1 = (Ok tt, w2)
    /\ heap w2 !! 0%nat = Some o2
    /\ historical_data o2 = h ++ map (Reading.record_of_cycle w1) (seq 0 n)
    /\ length (historical_data o2) = (length h + n)%nat.
Proof.
  intros Hfile Hio.
  destruct (restart_recovers w Hio)
    as (w1 & o1 & Hrun & (_ & Hlook1 & _) & _ & Hhist1 & _).
  rewrite Hfile in Hhist1. cbn in Hhist1.
  destruct (cycles_run 0 n w1 o1 Hlook1)
    as (w2 & o2 & Hcyc & Hlook2 & Hhist2 & _).
  rewrite Hhist1 in Hhist2.
  exists w1, w2, o2. split; [exact Hrun|]. split.
  { unfold DataManager.get_historical_data.
    erewrite bind_run by (apply get_self_run; exact Hlook1).
    rewrite Hhist1. reflexivity. }
  split; [exact Hcyc|]. split; [exact Hlook2|]. split; [exact Hhist2|].
  rewrite Hhist2, length_app, length_map, length_seq. reflexivity.
Qed.

Lemma history_grows_across_restarts_witness :
  exists (w1 w2 : World) (o2 : DataManagerObj),
    DataManager.construct restarted_world = (Ok 0%nat, w1)
    /\ cycles 0 2 w1 = (Ok tt, w2)
    /\ heap w2 !! 0%nat = Some o2
    /\ length (historical_data o2) = 3%nat.
Proof.
  pose proof (history_grows_across_restarts
                (snd (DataManager.update_data 0 booted_world))
                [Reading.record_of_cycle booted_world 0] 2) as Hthm.
  destruct Hthm as (w1 & w2 & o2 & Hrun & _ & Hcyc & Hlook & _ & Hlen).
  { vm_compute. reflexivity. }
  { intros i Hi. vm_compute. reflexivity. }
  exists w1, w2, o2. split; [exact Hrun|]. split; [exact Hcyc|].
  split; [exact Hlook | exact Hlen].
Defined.
